(** * MygramDB client: protocol codec, connection and facade

    A shallow embedding of [src/native/src/mygramclient.cpp] (the anonymous
    namespace helpers and [MygramClient::Impl]) together with the n-gram
    tokenizer declared in [src/native/include/string_utils.h].

    Conventions.
    - [std::string] is [string]; a [char] is an [ascii].
    - [uint32_t]/[uint64_t]/[size_t] values are [N]; where the code converts
      or overflows the wrap-around is written out.
    - A C++ exception leaving a function is the [Throws] outcome.
    - [std::variant<T, Error>] is [T + Error]; [std::optional<T>] is
      [option T].
    - The socket system calls are read from an explicit environment record,
      so every operation is a function of the client state and of what the
      operating system answers. *)

From Stdlib Require Import String Ascii List Bool Arith NArith ZArith QArith Lia.
Import ListNotations.

Local Open Scope list_scope.
Local Open Scope string_scope.

(** ** Characters that cannot be written inside a literal *)

Definition ch_tab : ascii := "009"%char.
Definition ch_lf : ascii := "010"%char.
Definition ch_vt : ascii := "011"%char.
Definition ch_ff : ascii := "012"%char.
Definition ch_cr : ascii := "013"%char.
Definition ch_space : ascii := "032"%char.
Definition ch_dquote : ascii := "034"%char.
Definition ch_squote : ascii := "039"%char.
Definition ch_backslash : ascii := "092"%char.

Definition CRLF : string := String ch_cr (String ch_lf "").

(** ** Exceptions and outcomes *)

(** The standard exceptions the code can let escape: [std::out_of_range]
    (from [substr], [stoul], [stoull], [stod]) and [std::invalid_argument]
    (from the [sto*] family). *)
Inductive exception : Type :=
| out_of_range
| invalid_argument.

Inductive outcome (A : Type) : Type :=
| Returns (a : A)
| Throws (e : exception).
Arguments Returns {A} a.
Arguments Throws {A} e.

Definition bind {A B : Type} (m : outcome A) (k : A -> outcome B) : outcome B :=
  match m with
  | Returns a => k a
  | Throws e => Throws e
  end.

Notation "x <- m ;; k" := (bind m (fun x => k))
  (at level 61, m at next level, right associativity).

(** ** [std::string] primitives *)

(** [s.substr(pos)]: the suffix from [pos]; throws [std::out_of_range] when
    [pos > s.size()]. *)
Fixpoint substr (s : string) (pos : nat) : outcome string :=
  match pos, s with
  | O, _ => Returns s
  | S _, EmptyString => Throws out_of_range
  | S p, String _ s' => substr s' p
  end.

(** [s.find(needle)], with [None] for [npos]. *)
Definition find (s needle : string) : option nat := String.index 0 needle s.

(** [s.find(needle) == 0] and [s.find(needle) != 0]. *)
Definition find_is_0 (s needle : string) : bool :=
  match find s needle with
  | Some O => true
  | _ => false
  end.

(** [s.find(c)] for a single character. *)
Fixpoint find_char (s : string) (c : ascii) : option nat :=
  match s with
  | EmptyString => None
  | String a s' =>
      if Ascii.eqb a c then Some O
      else match find_char s' c with
           | Some n => Some (S n)
           | None => None
           end
  end.

(** [s.substr(0, n)]: never throws, the count is clipped. *)
Fixpoint take (n : nat) (s : string) : string :=
  match n, s with
  | O, _ => EmptyString
  | S _, EmptyString => EmptyString
  | S m, String a s' => String a (take m s')
  end.

(** [s.substr(n)] for an [n] already known to be at most [s.size()]. *)
Fixpoint drop (n : nat) (s : string) : string :=
  match n, s with
  | O, _ => s
  | S _, EmptyString => EmptyString
  | S m, String _ s' => drop m s'
  end.

(** ** [EscapeQueryString] *)

(** The test of the first loop: the characters that force quoting. *)
Definition forces_quotes (character : ascii) : bool :=
  Ascii.eqb character ch_space || Ascii.eqb character ch_tab ||
  Ascii.eqb character ch_lf || Ascii.eqb character ch_cr ||
  Ascii.eqb character ch_dquote || Ascii.eqb character ch_squote.

(** The first loop: [needs_quotes] becomes true at the first such character. *)
Fixpoint needs_quotes (str : string) : bool :=
  match str with
  | EmptyString => false
  | String character rest => if forces_quotes character then true else needs_quotes rest
  end.

(** The test of the second loop: the characters that get a backslash. *)
Definition gets_backslash (character : ascii) : bool :=
  Ascii.eqb character ch_dquote || Ascii.eqb character ch_backslash.

(** The second loop, appending to [result] one character at a time. *)
Fixpoint escape_loop (result : string) (str : string) : string :=
  match str with
  | EmptyString => result
  | String character rest =>
      let result := if gets_backslash character
                    then result ++ String ch_backslash ""
                    else result in
      escape_loop (result ++ String character "") rest
  end.

Definition EscapeQueryString (str : string) : string :=
  if negb (needs_quotes str) then str
  else escape_loop (String ch_dquote "") str ++ String ch_dquote "".

(** ** [std::istringstream] *)

(** [std::isspace] in the "C" locale. *)
Definition isspace (c : ascii) : bool :=
  Ascii.eqb c ch_space || Ascii.eqb c ch_tab || Ascii.eqb c ch_lf ||
  Ascii.eqb c ch_vt || Ascii.eqb c ch_ff || Ascii.eqb c ch_cr.

(** An input string stream: the characters not yet read, and whether the
    stream is still good.  Once [failbit] is set every further extraction is
    a no-op (the code never calls [clear]). *)
Record istringstream : Type := mk_iss { pending : string; good : bool }.

Definition open_stream (s : string) : istringstream := mk_iss s true.

Definition set_fail (iss : istringstream) : istringstream :=
  mk_iss (pending iss) false.

Fixpoint skip_ws (s : string) : string :=
  match s with
  | EmptyString => EmptyString
  | String c s' => if isspace c then skip_ws s' else s
  end.

(** The maximal run of non-space characters at the front, and what follows. *)
Fixpoint read_word (s : string) : string * string :=
  match s with
  | EmptyString => (EmptyString, EmptyString)
  | String c s' =>
      if isspace c then (EmptyString, s)
      else let (w, r) := read_word s' in (String c w, r)
  end.

(** [iss >> token] for a [std::string]: [None] when the extraction fails. *)
Definition extract_word (iss : istringstream) : option string * istringstream :=
  if good iss then
    match skip_ws (pending iss) with
    | EmptyString => (None, mk_iss EmptyString false)
    | s => let (w, r) := read_word s in (Some w, mk_iss r true)
    end
  else (None, iss).

(** [while (iss >> token) tokens.push_back(token);].  Every successful
    extraction consumes a character, so [S (length pending)] rounds are
    enough (see [read_tokens_fuel]). *)
Fixpoint read_tokens (fuel : nat) (iss : istringstream) : list string :=
  match fuel with
  | O => []
  | S fuel' =>
      match extract_word iss with
      | (Some token, iss') => token :: read_tokens fuel' iss'
      | (None, _) => []
      end
  end.

Definition remaining_tokens (iss : istringstream) : list string :=
  read_tokens (S (String.length (pending iss))) iss.

(** [std::getline(iss, piece, delim)]: the characters before the first
    [delim] (which is consumed), and what follows. *)
Fixpoint read_until (delim : ascii) (s : string) : string * string :=
  match s with
  | EmptyString => (EmptyString, EmptyString)
  | String c s' =>
      if Ascii.eqb c delim then (EmptyString, s')
      else let (l, r) := read_until delim s' in (String c l, r)
  end.

(** [std::getline(iss, line)]: [None] when nothing can be read (the stream
    has failed, or is at the end of its input). *)
Definition getline (iss : istringstream) : option string * istringstream :=
  if good iss then
    match pending iss with
    | EmptyString => (None, mk_iss EmptyString false)
    | s => let (l, r) := read_until ch_lf s in (Some l, mk_iss r true)
    end
  else (None, iss).

(** [while (std::getline(in, piece, delim)) ...] over a fresh stream on [s]:
    every piece read.  Each round consumes a character, so
    [S (length s)] rounds are enough. *)
Fixpoint read_pieces (fuel : nat) (delim : ascii) (s : string) : list string :=
  match fuel with
  | O => []
  | S fuel' =>
      match s with
      | EmptyString => []
      | _ => let (l, r) := read_until delim s in l :: read_pieces fuel' delim r
      end
  end.

Definition pieces (delim : ascii) (s : string) : list string :=
  read_pieces (S (String.length s)) delim s.

(** ** Reading numbers *)

Definition is_digit (c : ascii) : bool :=
  (48 <=? nat_of_ascii c)%nat && (nat_of_ascii c <=? 57)%nat.

Definition digit_value (c : ascii) : N := N.of_nat (nat_of_ascii c - 48).

Definition digit_char (d : N) : ascii := ascii_of_nat (48 + N.to_nat d).

(** The maximal run of decimal digits at the front, and what follows. *)
Fixpoint read_digits (s : string) : string * string :=
  match s with
  | EmptyString => (EmptyString, EmptyString)
  | String c s' =>
      if is_digit c then let (d, r) := read_digits s' in (String c d, r)
      else (EmptyString, s)
  end.

Fixpoint digits_value (acc : N) (digits : string) : N :=
  match digits with
  | EmptyString => acc
  | String c digits' => digits_value (acc * 10 + digit_value c) digits'
  end.

Definition UINT64_MAX : N := 18446744073709551615.
Definition UINT32_MOD : N := 4294967296.

(** What [strtoull] (base 10) and the [num_get] facet read once leading
    white space is gone: an optional sign, then digits.  [None]: no digit,
    no conversion.  Otherwise the sign, the magnitude, and the rest. *)
Definition scan_unsigned (s : string) : option (bool * N * string) :=
  let '(negative, s1) :=
    match s with
    | String c s' =>
        if Ascii.eqb c "-" then (true, s')
        else if Ascii.eqb c "+" then (false, s')
        else (false, s)
    | EmptyString => (false, s)
    end in
  let (digits, rest) := read_digits s1 in
  match digits with
  | EmptyString => None
  | _ => Some (negative, digits_value 0 digits, rest)
  end.

(** The value an unsigned 64-bit conversion stores for an in-range
    magnitude: a leading minus negates modulo 2^64. *)
Definition apply_sign64 (negative : bool) (magnitude : N) : N :=
  if negative then ((UINT64_MAX + 1 - magnitude) mod (UINT64_MAX + 1))%N
  else magnitude.

(** [iss >> value] for a [uint64_t].  A stream that has already failed, or
    that runs out of input while white space is skipped, leaves [value] as
    it was; otherwise a failed conversion sets [failbit] and stores 0 (no
    digit) or the maximum (overflow). *)
Definition extract_u64 (iss : istringstream) (value : N) : N * istringstream :=
  if good iss then
    match skip_ws (pending iss) with
    | EmptyString => (value, mk_iss EmptyString false)
    | s =>
        match scan_unsigned s with
        | None => (0%N, set_fail iss)
        | Some (negative, magnitude, rest) =>
            if (UINT64_MAX <? magnitude)%N then (UINT64_MAX, mk_iss rest false)
            else (apply_sign64 negative magnitude, mk_iss rest true)
        end
    end
  else (value, iss).

(** [std::stoull(str)]: [strtoull] in base 10; no conversion throws
    [std::invalid_argument], overflow throws [std::out_of_range]; characters
    after the number are ignored. *)
Definition stoull (str : string) : outcome N :=
  match scan_unsigned (skip_ws str) with
  | None => Throws invalid_argument
  | Some (negative, magnitude, _) =>
      if (UINT64_MAX <? magnitude)%N then Throws out_of_range
      else Returns (apply_sign64 negative magnitude)
  end.

(** [std::stoul(str)]: [unsigned long] has 64 bits on the LP64 platforms the
    POSIX socket code targets. *)
Definition stoul (str : string) : outcome N := stoull str.

(** [static_cast<uint32_t>(x)]. *)
Definition to_uint32 (x : N) : N := (x mod UINT32_MOD)%N.

(** [os << n] for an unsigned integer: decimal, no leading zero. *)
Fixpoint decimal_loop (fuel : nat) (n : N) (acc : string) : string :=
  match fuel with
  | O => acc
  | S fuel' =>
      let acc' := String (digit_char (n mod 10)) acc in
      if (n / 10 =? 0)%N then acc' else decimal_loop fuel' (n / 10) acc'
  end.

Definition decimal (n : N) : string := decimal_loop (S (N.to_nat (N.log2 n))) n "".

(** ** [ParseKeyValuePairs] *)

(** The body of the loop: a token with an [=] contributes a pair. *)
Definition key_value (token : string) : option (string * string) :=
  match find_char token "=" with
  | Some pos => Some (take pos token, drop (pos + 1) token)
  | None => None
  end.

Fixpoint collect_pairs (tokens : list string) : list (string * string) :=
  match tokens with
  | [] => []
  | token :: tokens' =>
      match key_value token with
      | Some kv => kv :: collect_pairs tokens'
      | None => collect_pairs tokens'
      end
  end.

Definition ParseKeyValuePairs (str : string) : list (string * string) :=
  collect_pairs (remaining_tokens (open_stream str)).

(** ** Data model *)

(** Protocol constants. *)
Definition kErrorPrefixLen : nat := 6.
Definition kSavedPrefixLen : nat := 9.
Definition kLoadedPrefixLen : nat := 10.

(** Modelled from the spec: the result types declared in [mygramclient.h],
    which is not among the sources.  [Error] carries a message and is built
    from one ([Error(msg)]); the fields of the other records are those the
    code assigns, with the spec's reading of [DebugInfo] (every field
    optional: absent is not zero) and zero or empty defaults elsewhere. *)
Record Error : Type := mkError { message : string }.

Record DebugInfo (double : Type) : Type := mkDebugInfo {
  query_time_ms : option double;
  index_time_ms : option double;
  filter_time_ms : option double;
  terms : option N;
  ngrams : option N;
  candidates : option N;
  after_intersection : option N;
  after_not : option N;
  after_filters : option N;
  final : option N;
  optimization : option string
}.
Arguments mkDebugInfo {double}.
Arguments query_time_ms {double}.
Arguments index_time_ms {double}.
Arguments filter_time_ms {double}.
Arguments terms {double}.
Arguments ngrams {double}.
Arguments candidates {double}.
Arguments after_intersection {double}.
Arguments after_not {double}.
Arguments after_filters {double}.
Arguments final {double}.
Arguments optimization {double}.

Record SearchResponse (double : Type) : Type := mkSearchResponse {
  total_count : N;
  results : list string;
  debug : option (DebugInfo double)
}.
Arguments mkSearchResponse {double}.
Arguments total_count {double}.
Arguments results {double}.
Arguments debug {double}.

(** [CountResponse::debug] is [count_debug] here (field names are global). *)
Record CountResponse (double : Type) : Type := mkCountResponse {
  count : N;
  count_debug : option (DebugInfo double)
}.
Arguments mkCountResponse {double}.
Arguments count {double}.
Arguments count_debug {double}.

Record Document : Type := mkDocument {
  primary_key : string;
  fields : list (string * string)
}.

Record ServerInfo : Type := mkServerInfo {
  version : string;
  uptime_seconds : N;
  total_requests : N;
  active_connections : N;
  index_size_bytes : N;
  doc_count : N;
  tables : list string
}.

Record ReplicationStatus : Type := mkReplicationStatus {
  running : bool;
  gtid : string;
  status_str : string
}.

Record ClientConfig : Type := mkClientConfig {
  host : string;
  port : N;
  timeout_ms : N;
  recv_buffer_size : N
}.

(** The private members of [MygramClient::Impl]. *)
Record Impl : Type := mkImpl {
  config_ : ClientConfig;
  sock_ : Z;
  last_error_ : string
}.

(** [explicit Impl(ClientConfig config)]: [sock_{-1}], empty [last_error_]. *)
Definition new_Impl (config : ClientConfig) : Impl := mkImpl config (-1) "".

Definition set_sock (st : Impl) (fd : Z) : Impl :=
  mkImpl (config_ st) fd (last_error_ st).

Definition set_last_error (st : Impl) (msg : string) : Impl :=
  mkImpl (config_ st) (sock_ st) msg.

(** ** The operating system *)

(** What [recv] hands back: [-1], or the bytes the peer has sent so far
    (none at all is an orderly shutdown, return value 0). *)
Inductive recv_result : Type :=
| recv_error
| recv_data (bytes : string).

(** The answers of the system calls the client makes.  [sys_send] and
    [sys_recv] depend on the line that was sent, which is how the server's
    reply to one command is described. *)
Record System : Type := mkSystem {
  sys_socket : Z;
  sys_inet_pton : string -> Z;
  sys_connect : Z;
  sys_send : string -> Z;
  sys_recv : string -> recv_result;
  sys_strerror : string
}.

(** ** Connection *)

Definition IsConnected (st : Impl) : bool := (0 <=? sock_ st)%Z.

Definition GetLastError (st : Impl) : string := last_error_ st.

(** [Connect]: the returned string, when present, is the error message.
    [setsockopt] has no effect the model observes; [close] only matters
    through [sock_ = -1]. *)
Definition Connect (os : System) (st : Impl) : option string * Impl :=
  if (0 <=? sock_ st)%Z then (Some "Already connected", st)
  else
    let st := set_sock st (sys_socket os) in
    if (sock_ st <? 0)%Z then
      let st := set_last_error st ("Failed to create socket: " ++ sys_strerror os) in
      (Some (last_error_ st), st)
    else if (sys_inet_pton os (host (config_ st)) <=? 0)%Z then
      let st := set_last_error st ("Invalid address: " ++ host (config_ st)) in
      let st := set_sock st (-1) in
      (Some (last_error_ st), st)
    else if (sys_connect os <? 0)%Z then
      let st := set_last_error st ("Connection failed: " ++ sys_strerror os) in
      let st := set_sock st (-1) in
      (Some (last_error_ st), st)
    else (None, st).

Definition Disconnect (st : Impl) : Impl :=
  if (0 <=? sock_ st)%Z then set_sock st (-1) else st.

(** The loop that pops trailing ['\n'] and ['\r'] off the response. *)
Fixpoint strip_line_end (response : string) : string :=
  match response with
  | EmptyString => EmptyString
  | String c rest =>
      match strip_line_end rest with
      | EmptyString =>
          if Ascii.eqb c ch_lf || Ascii.eqb c ch_cr then EmptyString
          else String c EmptyString
      | kept => String c kept
      end
  end.

(** At most [len] bytes of what the peer sent: what one [recv] with a
    buffer of [len] bytes delivers. *)
Fixpoint first_bytes (len : N) (bytes : string) : string :=
  match bytes with
  | EmptyString => EmptyString
  | String c bytes' =>
      if (len =? 0)%N then EmptyString else String c (first_bytes (len - 1) bytes')
  end.

(** [buffer.size() - 1] in [size_t] arithmetic. *)
Definition size_minus_1 (size : N) : N :=
  if (size =? 0)%N then UINT64_MAX else (size - 1)%N.

(** [SendCommand]: one [send], one [recv] of at most
    [recv_buffer_size - 1] bytes. *)
Definition SendCommand (os : System) (st : Impl) (command : string)
  : (string + Error) * Impl :=
  if negb (IsConnected st) then
    let st := set_last_error st "Not connected" in
    (inr (mkError (last_error_ st)), st)
  else
    let msg := command ++ CRLF in
    if (sys_send os msg <? 0)%Z then
      let st := set_last_error st ("Failed to send command: " ++ sys_strerror os) in
      (inr (mkError (last_error_ st)), st)
    else
      match sys_recv os msg with
      | recv_error =>
          let st := set_last_error st ("Failed to receive response: " ++ sys_strerror os) in
          (inr (mkError (last_error_ st)), st)
      | recv_data bytes =>
          match first_bytes (size_minus_1 (recv_buffer_size (config_ st))) bytes with
          | EmptyString =>
              let st := set_last_error st "Connection closed by server" in
              (inr (mkError (last_error_ st)), st)
          | received => (inl (strip_line_end received), st)
          end
      end.

(** ** Command lines *)

(** [for (term : terms) cmd << keyword << EscapeQueryString(term);] *)
Fixpoint append_terms (cmd keyword : string) (terms : list string) : string :=
  match terms with
  | [] => cmd
  | term :: terms' => append_terms (cmd ++ keyword ++ EscapeQueryString term) keyword terms'
  end.

(** [for ([key, value] : filters) cmd << " FILTER " << key << " = " << ...;] *)
Fixpoint append_filters (cmd : string) (filters : list (string * string)) : string :=
  match filters with
  | [] => cmd
  | (key, value) :: filters' =>
      append_filters (cmd ++ " FILTER " ++ key ++ " = " ++ EscapeQueryString value) filters'
  end.

(** The command built at the head of [Search]; [limit] and [offset] are
    [uint32_t]. *)
Definition Search_command (table query : string) (limit offset : N)
    (and_terms not_terms : list string) (filters : list (string * string))
    (sort_column : string) (sort_desc : bool) : string :=
  let cmd := "SEARCH " ++ table ++ " " ++ EscapeQueryString query in
  let cmd := append_terms cmd " AND " and_terms in
  let cmd := append_terms cmd " NOT " not_terms in
  let cmd := append_filters cmd filters in
  let cmd :=
    if negb (sort_column =? "") then
      cmd ++ " SORT " ++ sort_column ++ (if sort_desc then " DESC" else " ASC")
    else if negb sort_desc then cmd ++ " SORT ASC"
    else cmd in
  let cmd :=
    if (0 <? limit)%N && (0 <? offset)%N then
      cmd ++ " LIMIT " ++ decimal offset ++ "," ++ decimal limit
    else if (0 <? limit)%N then cmd ++ " LIMIT " ++ decimal limit
    else cmd in
  cmd.

(** The command built at the head of [Count]. *)
Definition Count_command (table query : string)
    (and_terms not_terms : list string) (filters : list (string * string)) : string :=
  let cmd := "COUNT " ++ table ++ " " ++ EscapeQueryString query in
  let cmd := append_terms cmd " AND " and_terms in
  let cmd := append_terms cmd " NOT " not_terms in
  append_filters cmd filters.

Definition Get_command (table primary_key : string) : string :=
  "GET " ++ table ++ " " ++ primary_key.

Definition Save_command (filepath : string) : string :=
  if filepath =? "" then "SAVE" else "SAVE " ++ filepath.

Definition Load_command (filepath : string) : string := "LOAD " ++ filepath.

(** ** Response handling of the operations without debug blocks *)

(** [Get], from [std::string response = ...] on. *)
Definition Get_response (response : string) : outcome (Document + Error) :=
  if find_is_0 response "ERROR" then
    msg <- substr response kErrorPrefixLen ;; Returns (inr (mkError msg))
  else if negb (find_is_0 response "OK DOC") then
    Returns (inr (mkError "Unexpected response format"))
  else
    let iss := open_stream response in
    let (_, iss) := extract_word iss in
    let (_, iss) := extract_word iss in
    let (doc_pk, iss) :=
      match extract_word iss with
      | (Some w, iss') => (w, iss')
      | (None, iss') => (EmptyString, iss')
      end in
    let rest :=
      match getline iss with
      | (Some l, _) => l
      | (None, _) => EmptyString
      end in
    Returns (inl (mkDocument doc_pk (ParseKeyValuePairs rest))).

(** Membership in the trim set [" \t\r\n"]. *)
Definition trimmed_char (c : ascii) : bool :=
  Ascii.eqb c ch_space || Ascii.eqb c ch_tab || Ascii.eqb c ch_cr || Ascii.eqb c ch_lf.

Fixpoint find_first_not_of (s : string) : option nat :=
  match s with
  | EmptyString => None
  | String c s' =>
      if trimmed_char c then
        match find_first_not_of s' with
        | Some n => Some (S n)
        | None => None
        end
      else Some O
  end.

Fixpoint find_last_not_of (s : string) : option nat :=
  match s with
  | EmptyString => None
  | String c s' =>
      match find_last_not_of s' with
      | Some n => Some (S n)
      | None => if trimmed_char c then None else Some O
      end
  end.

Definition trim_value (value : string) : string :=
  match find_first_not_of value, find_last_not_of value with
  | Some start, Some last => take (last - start + 1) (drop start value)
  | _, _ => value
  end.

Fixpoint nonempty_only (l : list string) : list string :=
  match l with
  | [] => []
  | table :: l' => if table =? "" then nonempty_only l' else table :: nonempty_only l'
  end.

(** One [key: value] line of the INFO reply. *)
Definition info_field (info : ServerInfo) (key value : string) : outcome ServerInfo :=
  if key =? "version" then
    Returns (mkServerInfo value (uptime_seconds info) (total_requests info)
               (active_connections info) (index_size_bytes info) (doc_count info) (tables info))
  else if key =? "uptime_seconds" then
    n <- stoull value ;;
    Returns (mkServerInfo (version info) n (total_requests info)
               (active_connections info) (index_size_bytes info) (doc_count info) (tables info))
  else if key =? "total_requests" then
    n <- stoull value ;;
    Returns (mkServerInfo (version info) (uptime_seconds info) n
               (active_connections info) (index_size_bytes info) (doc_count info) (tables info))
  else if key =? "active_connections" then
    n <- stoull value ;;
    Returns (mkServerInfo (version info) (uptime_seconds info) (total_requests info)
               n (index_size_bytes info) (doc_count info) (tables info))
  else if key =? "index_size_bytes" then
    n <- stoull value ;;
    Returns (mkServerInfo (version info) (uptime_seconds info) (total_requests info)
               (active_connections info) n (doc_count info) (tables info))
  else if (key =? "doc_count") || (key =? "total_documents") then
    n <- stoull value ;;
    Returns (mkServerInfo (version info) (uptime_seconds info) (total_requests info)
               (active_connections info) (index_size_bytes info) n (tables info))
  else if key =? "tables" then
    Returns (mkServerInfo (version info) (uptime_seconds info) (total_requests info)
               (active_connections info) (index_size_bytes info) (doc_count info)
               (tables info ++ nonempty_only (pieces "," value))%list)
  else Returns info.

Definition info_line (info : ServerInfo) (line : string) : outcome ServerInfo :=
  match line with
  | EmptyString => Returns info
  | String c _ =>
      if Ascii.eqb c "#" || Ascii.eqb c ch_cr then Returns info
      else
        match find_char line ":" with
        | Some colon_pos =>
            info_field info (take colon_pos line) (trim_value (drop (colon_pos + 1) line))
        | None => Returns info
        end
  end.

Fixpoint info_lines (info : ServerInfo) (lines : list string) : outcome ServerInfo :=
  match lines with
  | [] => Returns info
  | line :: lines' => info' <- info_line info line ;; info_lines info' lines'
  end.

(** [Info], from [std::string response = ...] on: the first line is
    skipped, the others are read with [std::getline]. *)
Definition Info_response (response : string) : outcome (ServerInfo + Error) :=
  if find_is_0 response "ERROR" then
    msg <- substr response kErrorPrefixLen ;; Returns (inr (mkError msg))
  else if negb (find_is_0 response "OK INFO") then
    Returns (inr (mkError "Unexpected response format"))
  else
    info <- info_lines (mkServerInfo "" 0 0 0 0 0 []) (tl (pieces ch_lf response)) ;;
    Returns (inl info).

(** [GetConfig], [Save] and [Load]: the value returned on an ERROR line is a
    [std::string], so the variant holds its first alternative. *)
Definition GetConfig_response (response : string) : outcome (string + Error) :=
  if find_is_0 response "ERROR" then
    text <- substr response kErrorPrefixLen ;; Returns (inl text)
  else Returns (inl response).

Definition Save_response (response : string) : outcome (string + Error) :=
  if find_is_0 response "ERROR" then
    text <- substr response kErrorPrefixLen ;; Returns (inl text)
  else if negb (find_is_0 response "OK SAVED") then
    Returns (inr (mkError "Unexpected response format"))
  else
    text <- substr response kSavedPrefixLen ;; Returns (inl text).

Definition Load_response (response : string) : outcome (string + Error) :=
  if find_is_0 response "ERROR" then
    text <- substr response kErrorPrefixLen ;; Returns (inl text)
  else if negb (find_is_0 response "OK LOADED") then
    Returns (inr (mkError "Unexpected response format"))
  else
    text <- substr response kLoadedPrefixLen ;; Returns (inl text).

(** The loop over the pairs in [GetReplicationStatus]. *)
Fixpoint replication_pairs (status : ReplicationStatus) (pairs : list (string * string))
  : ReplicationStatus :=
  match pairs with
  | [] => status
  | (key, value) :: pairs' =>
      let status :=
        if key =? "status" then
          mkReplicationStatus (value =? "running") (gtid status) (status_str status)
        else if key =? "gtid" then
          mkReplicationStatus (running status) value (status_str status)
        else status in
      replication_pairs status pairs'
  end.

Definition GetReplicationStatus_response (response : string)
  : outcome (ReplicationStatus + Error) :=
  if find_is_0 response "ERROR" then
    msg <- substr response kErrorPrefixLen ;; Returns (inr (mkError msg))
  else if negb (find_is_0 response "OK REPLICATION") then
    Returns (inr (mkError "Unexpected response format"))
  else
    Returns (inl (replication_pairs (mkReplicationStatus false "" response)
                    (ParseKeyValuePairs response))).

(** [StopReplication], [StartReplication], [EnableDebug], [DisableDebug]:
    the optional string is the error message. *)
Definition ack_response (response : string) : outcome (option string) :=
  if find_is_0 response "ERROR" then
    msg <- substr response kErrorPrefixLen ;; Returns (Some msg)
  else Returns None.

(** ** Debug blocks, [Search] and [Count] *)

(** Modelled from the spec: a default-constructed [DebugInfo] has every
    field absent. *)
Definition empty_debug {double : Type} : DebugInfo double :=
  mkDebugInfo None None None None None None None None None None None.

Section Client.

(** [double] and [std::stod] are kept abstract: the facts below do not
    depend on how a decimal literal is rounded to binary floating point. *)
Variable double : Type.
Variable stod : string -> outcome double.

(** The chain of comparisons on [key] inside the loop of [ParseDebugInfo]. *)
Definition debug_field (info : DebugInfo double) (key value : string)
  : outcome (DebugInfo double) :=
  if key =? "query_time" then
    v <- stod value ;;
    Returns (mkDebugInfo (Some v) (index_time_ms info) (filter_time_ms info) (terms info)
               (ngrams info) (candidates info) (after_intersection info) (after_not info)
               (after_filters info) (final info) (optimization info))
  else if key =? "index_time" then
    v <- stod value ;;
    Returns (mkDebugInfo (query_time_ms info) (Some v) (filter_time_ms info) (terms info)
               (ngrams info) (candidates info) (after_intersection info) (after_not info)
               (after_filters info) (final info) (optimization info))
  else if key =? "filter_time" then
    v <- stod value ;;
    Returns (mkDebugInfo (query_time_ms info) (index_time_ms info) (Some v) (terms info)
               (ngrams info) (candidates info) (after_intersection info) (after_not info)
               (after_filters info) (final info) (optimization info))
  else if key =? "terms" then
    v <- stoul value ;;
    Returns (mkDebugInfo (query_time_ms info) (index_time_ms info) (filter_time_ms info)
               (Some (to_uint32 v))
               (ngrams info) (candidates info) (after_intersection info) (after_not info)
               (after_filters info) (final info) (optimization info))
  else if key =? "ngrams" then
    v <- stoul value ;;
    Returns (mkDebugInfo (query_time_ms info) (index_time_ms info) (filter_time_ms info)
               (terms info) (Some (to_uint32 v))
               (candidates info) (after_intersection info) (after_not info)
               (after_filters info) (final info) (optimization info))
  else if key =? "candidates" then
    v <- stoull value ;;
    Returns (mkDebugInfo (query_time_ms info) (index_time_ms info) (filter_time_ms info)
               (terms info) (ngrams info) (Some v) (after_intersection info) (after_not info)
               (after_filters info) (final info) (optimization info))
  else if key =? "after_intersection" then
    v <- stoull value ;;
    Returns (mkDebugInfo (query_time_ms info) (index_time_ms info) (filter_time_ms info)
               (terms info) (ngrams info) (candidates info) (Some v) (after_not info)
               (after_filters info) (final info) (optimization info))
  else if key =? "after_not" then
    v <- stoull value ;;
    Returns (mkDebugInfo (query_time_ms info) (index_time_ms info) (filter_time_ms info)
               (terms info) (ngrams info) (candidates info) (after_intersection info) (Some v)
               (after_filters info) (final info) (optimization info))
  else if key =? "after_filters" then
    v <- stoull value ;;
    Returns (mkDebugInfo (query_time_ms info) (index_time_ms info) (filter_time_ms info)
               (terms info) (ngrams info) (candidates info) (after_intersection info)
               (after_not info) (Some v) (final info) (optimization info))
  else if key =? "final" then
    v <- stoull value ;;
    Returns (mkDebugInfo (query_time_ms info) (index_time_ms info) (filter_time_ms info)
               (terms info) (ngrams info) (candidates info) (after_intersection info)
               (after_not info) (after_filters info) (Some v) (optimization info))
  else if key =? "optimization" then
    Returns (mkDebugInfo (query_time_ms info) (index_time_ms info) (filter_time_ms info)
               (terms info) (ngrams info) (candidates info) (after_intersection info)
               (after_not info) (after_filters info) (final info) (Some value))
  else Returns info.

(** One round of the loop: a token without [=] is skipped. *)
Definition debug_token (info : DebugInfo double) (token : string)
  : outcome (DebugInfo double) :=
  match find_char token "=" with
  | None => Returns info
  | Some pos => debug_field info (take pos token) (drop (pos + 1) token)
  end.

Fixpoint debug_loop (info : DebugInfo double) (tokens : list string)
  : outcome (DebugInfo double) :=
  match tokens with
  | [] => Returns info
  | token :: tokens' => info' <- debug_token info token ;; debug_loop info' tokens'
  end.

Definition ParseDebugInfo (tokens : list string) (start_index : nat)
  : outcome (option (DebugInfo double)) :=
  if (List.length tokens <=? start_index)%nat
     || negb (nth start_index tokens "" =? "DEBUG")
  then Returns None
  else
    info <- debug_loop empty_debug (skipn (start_index + 1) tokens) ;;
    Returns (Some info).

(** The search for the DEBUG marker: its index, or [tokens.size()]. *)
Fixpoint find_debug_index (tokens : list string) : nat :=
  match tokens with
  | [] => O
  | token :: tokens' => if token =? "DEBUG" then O else S (find_debug_index tokens')
  end.

(** [Search], from [std::string response = ...] on. *)
Definition Search_response (response : string)
  : outcome (SearchResponse double + Error) :=
  if find_is_0 response "ERROR" then
    msg <- substr response kErrorPrefixLen ;; Returns (inr (mkError msg))
  else if negb (find_is_0 response "OK RESULTS") then
    Returns (inr (mkError "Unexpected response format"))
  else
    let iss := open_stream response in
    let (_, iss) := extract_word iss in
    let (_, iss) := extract_word iss in
    let (total_count, iss) := extract_u64 iss 0 in
    let tokens := remaining_tokens iss in
    let debug_index := find_debug_index tokens in
    let results := firstn debug_index tokens in
    dbg <- (if (debug_index <? List.length tokens)%nat
            then ParseDebugInfo tokens debug_index
            else Returns None) ;;
    Returns (inl (mkSearchResponse total_count results dbg)).

(** [Count], from [std::string response = ...] on. *)
Definition Count_response (response : string)
  : outcome (CountResponse double + Error) :=
  if find_is_0 response "ERROR" then
    msg <- substr response kErrorPrefixLen ;; Returns (inr (mkError msg))
  else if negb (find_is_0 response "OK COUNT") then
    Returns (inr (mkError "Unexpected response format"))
  else
    let iss := open_stream response in
    let (_, iss) := extract_word iss in
    let (_, iss) := extract_word iss in
    let (count, iss) := extract_u64 iss 0 in
    let tokens := remaining_tokens iss in
    dbg <- (match tokens with
            | first :: _ =>
                if first =? "DEBUG" then ParseDebugInfo tokens 0 else Returns None
            | [] => Returns None
            end) ;;
    Returns (inl (mkCountResponse count dbg)).

(** ** The facade *)

(** The shape every operation returning [std::variant<T, Error>] shares:
    a transport error is returned as it is, a response is decoded. *)
Definition exchange {T : Type} (os : System) (st : Impl) (cmd : string)
    (decode : string -> outcome (T + Error)) : outcome (T + Error) * Impl :=
  let (result, st) := SendCommand os st cmd in
  match result with
  | inr err => (Returns (inr err), st)
  | inl response => (decode response, st)
  end.

(** The same for the operations returning [std::optional<std::string>]. *)
Definition exchange_ack (os : System) (st : Impl) (cmd : string)
  : outcome (option string) * Impl :=
  let (result, st) := SendCommand os st cmd in
  match result with
  | inr err => (Returns (Some (message err)), st)
  | inl response => (ack_response response, st)
  end.

Definition Search (os : System) (st : Impl) (table query : string) (limit offset : N)
    (and_terms not_terms : list string) (filters : list (string * string))
    (sort_column : string) (sort_desc : bool) :=
  exchange os st
    (Search_command table query limit offset and_terms not_terms filters sort_column sort_desc)
    Search_response.

Definition Count (os : System) (st : Impl) (table query : string)
    (and_terms not_terms : list string) (filters : list (string * string)) :=
  exchange os st (Count_command table query and_terms not_terms filters) Count_response.

Definition Get (os : System) (st : Impl) (table primary_key : string) :=
  exchange os st (Get_command table primary_key) Get_response.

Definition Info (os : System) (st : Impl) := exchange os st "INFO" Info_response.

Definition GetConfig (os : System) (st : Impl) := exchange os st "CONFIG" GetConfig_response.

Definition Save (os : System) (st : Impl) (filepath : string) :=
  exchange os st (Save_command filepath) Save_response.

Definition Load (os : System) (st : Impl) (filepath : string) :=
  exchange os st (Load_command filepath) Load_response.

Definition GetReplicationStatus (os : System) (st : Impl) :=
  exchange os st "REPLICATION STATUS" GetReplicationStatus_response.

Definition StopReplication (os : System) (st : Impl) := exchange_ack os st "REPLICATION STOP".

Definition StartReplication (os : System) (st : Impl) := exchange_ack os st "REPLICATION START".

Definition EnableDebug (os : System) (st : Impl) := exchange_ack os st "DEBUG ON".

Definition DisableDebug (os : System) (st : Impl) := exchange_ack os st "DEBUG OFF".

(** ** All operations at once *)

(** One constructor per facade operation, with its arguments. *)
Inductive Command : Type :=
| CmdSearch (table query : string) (limit offset : N)
    (and_terms not_terms : list string) (filters : list (string * string))
    (sort_column : string) (sort_desc : bool)
| CmdCount (table query : string)
    (and_terms not_terms : list string) (filters : list (string * string))
| CmdGet (table primary_key : string)
| CmdInfo
| CmdGetConfig
| CmdSave (filepath : string)
| CmdLoad (filepath : string)
| CmdGetReplicationStatus
| CmdStartReplication
| CmdStopReplication
| CmdEnableDebug
| CmdDisableDebug.

(** What an operation hands back, tagged by its return type. *)
Inductive Reply : Type :=
| SearchReply (r : SearchResponse double + Error)
| CountReply (r : CountResponse double + Error)
| GetReply (r : Document + Error)
| InfoReply (r : ServerInfo + Error)
| TextReply (r : string + Error)
| ReplicationReply (r : ReplicationStatus + Error)
| AckReply (r : option string).

Definition tagged {A : Type} (tag : A -> Reply) (r : outcome A * Impl) : outcome Reply * Impl :=
  (match fst r with
   | Returns a => Returns (tag a)
   | Throws e => Throws e
   end, snd r).

Definition run (os : System) (st : Impl) (c : Command) : outcome Reply * Impl :=
  match c with
  | CmdSearch table query limit offset and_terms not_terms filters sort_column sort_desc =>
      tagged SearchReply
        (Search os st table query limit offset and_terms not_terms filters sort_column sort_desc)
  | CmdCount table query and_terms not_terms filters =>
      tagged CountReply (Count os st table query and_terms not_terms filters)
  | CmdGet table primary_key => tagged GetReply (Get os st table primary_key)
  | CmdInfo => tagged InfoReply (Info os st)
  | CmdGetConfig => tagged TextReply (GetConfig os st)
  | CmdSave filepath => tagged TextReply (Save os st filepath)
  | CmdLoad filepath => tagged TextReply (Load os st filepath)
  | CmdGetReplicationStatus => tagged ReplicationReply (GetReplicationStatus os st)
  | CmdStartReplication => tagged AckReply (StartReplication os st)
  | CmdStopReplication => tagged AckReply (StopReplication os st)
  | CmdEnableDebug => tagged AckReply (EnableDebug os st)
  | CmdDisableDebug => tagged AckReply (DisableDebug os st)
  end.

(** The line an operation sends. *)
Definition command_line (c : Command) : string :=
  match c with
  | CmdSearch table query limit offset and_terms not_terms filters sort_column sort_desc =>
      Search_command table query limit offset and_terms not_terms filters sort_column sort_desc
  | CmdCount table query and_terms not_terms filters =>
      Count_command table query and_terms not_terms filters
  | CmdGet table primary_key => Get_command table primary_key
  | CmdInfo => "INFO"
  | CmdGetConfig => "CONFIG"
  | CmdSave filepath => Save_command filepath
  | CmdLoad filepath => Load_command filepath
  | CmdGetReplicationStatus => "REPLICATION STATUS"
  | CmdStartReplication => "REPLICATION START"
  | CmdStopReplication => "REPLICATION STOP"
  | CmdEnableDebug => "DEBUG ON"
  | CmdDisableDebug => "DEBUG OFF"
  end.

(** The error an operation reports, if its result is one: the [Error]
    alternative of a variant, or the string of an optional. *)
Definition reply_error (r : Reply) : option string :=
  match r with
  | SearchReply (inr e) | CountReply (inr e) | GetReply (inr e) | InfoReply (inr e)
  | TextReply (inr e) | ReplicationReply (inr e) => Some (message e)
  | AckReply (Some msg) => Some msg
  | _ => None
  end.

End Client.

(** ** A reader of plain decimal literals

    Used to instantiate [stod] on concrete responses: white space, an
    optional sign, digits, an optional fraction.  The value is the exact
    rational the literal denotes (for literals such as [1.5] that is also
    the binary floating-point value); a literal without a digit is
    [std::invalid_argument]. *)
Definition pow10 (k : nat) : positive := Pos.pow 10 (Pos.of_nat k).

Definition decimal_literal (str : string) : outcome Q :=
  let s := skip_ws str in
  let '(negative, s1) :=
    match s with
    | String c s' =>
        if Ascii.eqb c "-" then (true, s')
        else if Ascii.eqb c "+" then (false, s')
        else (false, s)
    | EmptyString => (false, s)
    end in
  let (int_digits, after_int) := read_digits s1 in
  let frac_digits :=
    match after_int with
    | String c s' => if Ascii.eqb c "." then fst (read_digits s') else EmptyString
    | EmptyString => EmptyString
    end in
  match int_digits, frac_digits with
  | EmptyString, EmptyString => Throws invalid_argument
  | _, _ =>
      let mantissa := Z.of_N (digits_value (digits_value 0 int_digits) frac_digits) in
      let scale :=
        match String.length frac_digits with
        | O => 1%positive
        | k => pow10 k
        end in
      Returns (Qmake (if negative then Z.opp mantissa else mantissa) scale)
  end.

(** ** The n-gram tokenizer *)

Section Tokenizer.

(** [Utf8ToCodepoints] and [CodepointsToUtf8] are declared in
    [string_utils.h]; their definitions are not among the sources, so they
    are parameters here. *)
Variable Utf8ToCodepoints : string -> list N.
Variable CodepointsToUtf8 : list N -> string.

(** Every window of [n] consecutive codepoints, in order of its start. *)
Fixpoint windows (n : nat) (codepoints : list N) : list (list N) :=
  match codepoints with
  | [] => []
  | _ :: rest =>
      if (n <=? List.length codepoints)%nat
      then firstn n codepoints :: windows n rest
      else []
  end.

(** Modelled from the spec: the definition of [GenerateNgrams] is not among
    the sources (only its declaration in [string_utils.h]).  Following the
    spec, it slides a window of [n] codepoints over the text and emits every
    overlapping window, encoded back to UTF-8; [n] is a C++ [int]. *)
Definition GenerateNgrams (text : string) (n : Z) : list string :=
  map CodepointsToUtf8 (windows (Z.to_nat n) (Utf8ToCodepoints text)).

End Tokenizer.

(** A one-byte-per-codepoint codec, enough to run the tokenizer on ASCII
    text. *)
Definition ascii_codepoints (text : string) : list N :=
  map N_of_ascii (list_ascii_of_string text).

Definition ascii_text (codepoints : list N) : string :=
  string_of_list_ascii (map ascii_of_N codepoints).

(** ** Concrete systems for the examples *)

(** A connected client, and a server that answers every line with [reply]. *)
Definition example_config : ClientConfig := mkClientConfig "127.0.0.1" 11016 5000 65536.

Definition connected_client : Impl := mkImpl example_config 3 "".

Definition server_says (reply : string) : System :=
  mkSystem 3 (fun _ => 1%Z) 0 (fun msg => Z.of_nat (String.length msg))
           (fun _ => recv_data reply) "".

(** A client that never connected, and a system whose [socket] call fails. *)
Definition fresh_client : Impl := new_Impl example_config.

Definition no_descriptors : System :=
  mkSystem (-1) (fun _ => 1%Z) 0 (fun _ => (-1)%Z) (fun _ => recv_error)
           "Too many open files".

(** ** Vocabulary of the statements *)

(** The characters after which [EscapeQueryString] quotes its argument. *)
Definition quoting_chars : list ascii :=
  [ch_space; ch_tab; ch_lf; ch_cr; ch_dquote; ch_squote].

Definition free_of_quoting_chars (s : string) : Prop :=
  forall c, In c (list_ascii_of_string s) -> ~ In c quoting_chars.

(** [s] with a backslash put before every double quote and backslash. *)
Fixpoint backslash_escaped (s : string) : string :=
  match s with
  | EmptyString => EmptyString
  | String c s' =>
      if gets_backslash c
      then String ch_backslash (String c (backslash_escaped s'))
      else String c (backslash_escaped s')
  end.

Definition quote_wrapped (s : string) : string :=
  String ch_dquote (backslash_escaped s ++ String ch_dquote "").

(** The part of the SEARCH line that precedes the SORT and LIMIT clauses. *)
Definition Search_head (table query : string)
    (and_terms not_terms : list string) (filters : list (string * string)) : string :=
  append_filters
    (append_terms
       (append_terms ("SEARCH " ++ table ++ " " ++ EscapeQueryString query) " AND " and_terms)
       " NOT " not_terms)
    filters.

Definition map_outcome {A B : Type} (f : A -> B) (m : outcome A) : outcome B :=
  match m with
  | Returns a => Returns (f a)
  | Throws e => Throws e
  end.

(** The decoding step of each operation, on the response [SendCommand]
    handed over. *)
Definition decode (double : Type) (stod : string -> outcome double)
    (c : Command) (response : string) : outcome (Reply double) :=
  match c with
  | CmdSearch _ _ _ _ _ _ _ _ _ =>
      map_outcome (SearchReply double) (Search_response double stod response)
  | CmdCount _ _ _ _ _ =>
      map_outcome (CountReply double) (Count_response double stod response)
  | CmdGet _ _ => map_outcome (GetReply double) (Get_response response)
  | CmdInfo => map_outcome (InfoReply double) (Info_response response)
  | CmdGetConfig => map_outcome (TextReply double) (GetConfig_response response)
  | CmdSave _ => map_outcome (TextReply double) (Save_response response)
  | CmdLoad _ => map_outcome (TextReply double) (Load_response response)
  | CmdGetReplicationStatus =>
      map_outcome (ReplicationReply double) (GetReplicationStatus_response response)
  | CmdStartReplication | CmdStopReplication | CmdEnableDebug | CmdDisableDebug =>
      map_outcome (AckReply double) (ack_response response)
  end.

(** An operation's result when its [SendCommand] step failed with [err]. *)
Definition transport_failure (double : Type) (c : Command) (err : Error) : Reply double :=
  match c with
  | CmdSearch _ _ _ _ _ _ _ _ _ => SearchReply double (inr err)
  | CmdCount _ _ _ _ _ => CountReply double (inr err)
  | CmdGet _ _ => GetReply double (inr err)
  | CmdInfo => InfoReply double (inr err)
  | CmdGetConfig | CmdSave _ | CmdLoad _ => TextReply double (inr err)
  | CmdGetReplicationStatus => ReplicationReply double (inr err)
  | CmdStartReplication | CmdStopReplication | CmdEnableDebug | CmdDisableDebug =>
      AckReply double (Some (message err))
  end.

(** The text an operation hands back from an ERROR line, whichever
    alternative of its return type carries it. *)
Definition reply_text {double : Type} (r : Reply double) : option string :=
  match r with
  | TextReply _ (inl text) => Some text
  | _ => reply_error double r
  end.

(** What a variant-returning decoder may hand back for a line that is not
    an ERROR line: a value, the fixed protocol error, or an exception. *)
Definition value_or_protocol_error {T : Type} (m : outcome (T + Error)) : Prop :=
  match m with
  | Returns (inr err) => message err = "Unexpected response format"
  | _ => True
  end.

(** The nine operations whose ERROR branch wraps the text in [Error], or
    returns it as the optional message. *)
Definition reports_error_line (c : Command) : bool :=
  match c with
  | CmdGetConfig | CmdSave _ | CmdLoad _ => false
  | _ => true
  end.

(** A token as [operator>>] reads it: not empty, no white space inside. *)
Fixpoint no_space (s : string) : bool :=
  match s with
  | EmptyString => true
  | String c s' => negb (isspace c) && no_space s'
  end.

Definition is_word (token : string) : Prop := token <> "" /\ no_space token = true.

(** The tokens written one after the other, a space before each. *)
Fixpoint spaced (tokens : list string) : string :=
  match tokens with
  | [] => ""
  | token :: tokens' => " " ++ token ++ spaced tokens'
  end.

(** Where a token may end: at the end of the input or before white space. *)
Definition at_boundary (rest : string) : Prop :=
  match rest with
  | EmptyString => True
  | String c _ => isspace c = true
  end.

(** Where a number ends: at the end of the input or before a non-digit. *)
Definition after_number (rest : string) : Prop :=
  match rest with
  | EmptyString => True
  | String c _ => is_digit c = false
  end.

Fixpoint all_digits (s : string) : bool :=
  match s with
  | EmptyString => true
  | String c s' => is_digit c && all_digits s'
  end.

(** The keys [ParseDebugInfo] knows. *)
Definition debug_keys : list string :=
  ["query_time"; "index_time"; "filter_time"; "terms"; "ngrams"; "candidates";
   "after_intersection"; "after_not"; "after_filters"; "final"; "optimization"].

(** ** Vocabulary of the further properties *)


(** The last character, if any. *)
Fixpoint last_char (s : string) : option ascii :=
  match s with
  | EmptyString => None
  | String c EmptyString => Some c
  | String _ s' => last_char s'
  end.


(** A [key=value] token, and the pairs that survive being written as one:
    no [=] in the key, no white space in either part. *)
Definition pair_token (kv : string * string) : string := fst kv ++ "=" ++ snd kv.

Definition pair_ok (kv : string * string) : Prop :=
  find_char (fst kv) "=" = None /\ no_space (fst kv) = true /\ no_space (snd kv) = true.

(** The value of the last pair with the given key. *)
Fixpoint last_value (key : string) (pairs : list (string * string)) : option string :=
  match pairs with
  | [] => None
  | (k, v) :: pairs' =>
      match last_value key pairs' with
      | Some later => Some later
      | None => if k =? key then Some v else None
      end
  end.

(** The text the AND/NOT loop and the FILTER loop add to a command. *)
Fixpoint terms_clause (keyword : string) (terms : list string) : string :=
  match terms with
  | [] => ""
  | term :: terms' => keyword ++ EscapeQueryString term ++ terms_clause keyword terms'
  end.

Fixpoint filters_clause (filters : list (string * string)) : string :=
  match filters with
  | [] => ""
  | (key, value) :: filters' =>
      " FILTER " ++ key ++ " = " ++ EscapeQueryString value ++ filters_clause filters'
  end.

(** Made of the characters [trim_value] removes, and text with none of them
    at either end. *)
Fixpoint all_trimmed (s : string) : bool :=
  match s with
  | EmptyString => true
  | String c s' => trimmed_char c && all_trimmed s'
  end.

Definition untrimmed_ends (core : string) : Prop :=
  match core with
  | EmptyString => False
  | String c _ => trimmed_char c = false
  end /\
  match last_char core with
  | Some d => trimmed_char d = false
  | None => False
  end.

(** A line the INFO loop passes over: empty, a [#] header, one starting
    with a carriage return, or one without a colon. *)
Definition skipped_line (line : string) : Prop :=
  match line with
  | EmptyString => True
  | String c _ => c = "#"%char \/ c = ch_cr \/ find_char line ":" = None
  end.

(** The keys the INFO loop knows. *)
Definition info_keys : list string :=
  ["version"; "uptime_seconds"; "total_requests"; "active_connections";
   "index_size_bytes"; "doc_count"; "total_documents"; "tables"].

(** A default-constructed [ServerInfo], as [Info] starts from. *)
Definition empty_info : ServerInfo := mkServerInfo "" 0 0 0 0 0 [].

(** ** Proof steps *)

(** Split the pairs bound by [let], and the first argument of a [bind]. *)
Ltac split_lets :=
  repeat match goal with
         | |- context [let (_, _) := ?x in _] => destruct x
         end.

Ltac split_bind :=
  match goal with
  | |- context [bind ?m _] => destruct m; simpl
  end.

(** * Properties *)

(** ** Strings *)

Lemma append_nil_r (s : string) : s ++ "" = s.
Proof. induction s as [|c s IH]; simpl; [reflexivity | now rewrite IH]. Qed.

Lemma append_assoc (a b c : string) : (a ++ b) ++ c = a ++ (b ++ c).
Proof. induction a as [|x a IH]; simpl; [reflexivity | now rewrite IH]. Qed.

Lemma length_append (a b : string) :
  String.length (a ++ b) = (String.length a + String.length b)%nat.
Proof. induction a as [|x a IH]; simpl; [reflexivity | now rewrite IH]. Qed.

Lemma prefix_append (p s : string) : String.prefix p (p ++ s) = true.
Proof.
  induction p as [|c p IH]; simpl.
  - now destruct s.
  - destruct (ascii_dec c c) as [_|n]; [exact IH | now elim n].
Qed.

Lemma prefix_take (p s : string) :
  String.prefix p s = true <-> take (String.length p) s = p.
Proof.
  revert s; induction p as [|c p IH]; intros s; simpl.
  - split; [reflexivity | now destruct s].
  - destruct s as [|d s]; simpl.
    + split; discriminate.
    + destruct (ascii_dec c d) as [->|n].
      * rewrite IH. split; [now intros -> | now intros [= ->]].
      * split; [discriminate | intros [= -> _]; now elim n].
Qed.

(** [s.find(p) == 0] says that [p] is a prefix of [s]. *)
Lemma find_is_0_prefix (s p : string) : find_is_0 s p = String.prefix p s.
Proof.
  unfold find_is_0, find. destruct s as [|c s].
  - now destruct p.
  - change (String.index 0 p (String c s))
      with (if String.prefix p (String c s) then Some O
            else match String.index 0 p s with
                 | Some n => Some (S n)
                 | None => None
                 end).
    destruct (String.prefix p (String c s)); [reflexivity|].
    now destruct (String.index 0 p s).
Qed.

Lemma find_is_0_append (p s : string) : find_is_0 (p ++ s) p = true.
Proof. rewrite find_is_0_prefix. apply prefix_append. Qed.

Lemma substr_length (s : string) (pos : nat) :
  (pos <= String.length s)%nat -> substr s pos = Returns (drop pos s).
Proof.
  revert s; induction pos as [|pos IH]; intros s H; simpl.
  - now destruct s.
  - destruct s as [|c s]; simpl in *; [lia | apply IH; lia].
Qed.

Lemma substr_short (s : string) (pos : nat) :
  (String.length s < pos)%nat -> substr s pos = Throws out_of_range.
Proof.
  revert s; induction pos as [|pos IH]; intros s H; simpl.
  - lia.
  - destruct s as [|c s]; simpl in *; [reflexivity | apply IH; lia].
Qed.

Lemma drop_append (p s : string) : drop (String.length p) (p ++ s) = s.
Proof. induction p as [|c p IH]; simpl; [now destruct s | exact IH]. Qed.

(** ** [EscapeQueryString] *)

Lemma forces_quotes_In (c : ascii) : forces_quotes c = true <-> In c quoting_chars.
Proof.
  unfold forces_quotes, quoting_chars; simpl.
  rewrite !orb_true_iff, !Ascii.eqb_eq. intuition congruence.
Qed.

Lemma needs_quotes_false (s : string) :
  needs_quotes s = false <-> free_of_quoting_chars s.
Proof.
  unfold free_of_quoting_chars.
  induction s as [|c s IH]; simpl.
  - split; [intros _ c [] | reflexivity].
  - destruct (forces_quotes c) eqn:E.
    + split; [discriminate|]. intros H.
      exfalso. apply (H c); [now left | now apply forces_quotes_In].
    + rewrite IH. split.
      * intros H d [<-|Hd]; [|now apply H].
        intros Hin. apply forces_quotes_In in Hin. congruence.
      * intros H d Hd. apply H. now right.
Qed.

Lemma escape_loop_spec (result s : string) :
  escape_loop result s = result ++ backslash_escaped s.
Proof.
  revert result; induction s as [|c s IH]; intros result; simpl.
  - now rewrite append_nil_r.
  - rewrite IH. destruct (gets_backslash c); now rewrite !append_assoc.
Qed.

Lemma length_backslash_escaped (s : string) :
  (String.length s <= String.length (backslash_escaped s))%nat.
Proof.
  induction s as [|c s IH]; simpl; [lia|].
  destruct (gets_backslash c); simpl; lia.
Qed.

Lemma quote_wrapped_longer (s : string) : quote_wrapped s <> s.
Proof.
  intros H. apply (f_equal String.length) in H.
  unfold quote_wrapped in H. simpl in H. rewrite length_append in H. simpl in H.
  pose proof (length_backslash_escaped s). lia.
Qed.

Lemma EscapeQueryString_quoted (s : string) :
  needs_quotes s = true -> EscapeQueryString s = quote_wrapped s.
Proof.
  intros H. unfold EscapeQueryString, quote_wrapped. rewrite H. simpl.
  rewrite escape_loop_spec. simpl. reflexivity.
Qed.

(** C5. [EscapeQueryString s] is [s] itself exactly when [s] holds none of
    space, tab, newline, carriage return, double quote and single quote;
    otherwise it is [s] between double quotes, with a backslash before each
    double quote and each backslash of [s]. *)
Theorem EscapeQueryString_spec (s : string) :
  (EscapeQueryString s = s <-> free_of_quoting_chars s) /\
  (~ free_of_quoting_chars s -> EscapeQueryString s = quote_wrapped s).
Proof.
  rewrite <- needs_quotes_false. split; [split|].
  - intros H. destruct (needs_quotes s) eqn:E; [|reflexivity].
    rewrite EscapeQueryString_quoted in H by assumption.
    now apply quote_wrapped_longer in H.
  - intros H. unfold EscapeQueryString. now rewrite H.
  - intros H. apply EscapeQueryString_quoted.
    destruct (needs_quotes s); [reflexivity | now elim H].
Qed.

(** The theorem at a bare token and at a token with a space, a quote and a
    backslash. *)
Lemma EscapeQueryString_spec_witness :
  EscapeQueryString "hello" = "hello" /\
  EscapeQueryString (String "a" (String " " (String ch_dquote (String ch_backslash "b")))) =
  String ch_dquote (String "a" (String " " (String ch_backslash (String ch_dquote
    (String ch_backslash (String ch_backslash (String "b" (String ch_dquote "")))))))).
Proof.
  split.
  - apply (proj1 (EscapeQueryString_spec "hello")).
    intros c Hc Hq. simpl in Hc, Hq.
    repeat (destruct Hc as [<-|Hc]; [repeat (destruct Hq as [Hq|Hq]; [discriminate Hq|]); exact Hq|]).
    exact Hc.
  - refine (proj2 (EscapeQueryString_spec
              (String "a" (String " " (String ch_dquote (String ch_backslash "b"))))) _).
    intros H. apply (H " "%char); simpl; auto.
Defined.

(** ** The SEARCH command line *)

(** C3. The line built by [Search] is the head (table, query, AND, NOT and
    FILTER parts) followed by a SORT clause and a LIMIT clause chosen by the
    sort/limit policy: a sort column gives [SORT <col> DESC] or
    [SORT <col> ASC]; no column gives [SORT ASC] when ascending is asked and
    nothing when descending is; a positive limit gives [LIMIT offset,limit]
    with a positive offset and [LIMIT limit] with offset 0; limit 0 gives no
    clause whatever the offset.  The two lines of the spec's example are
    built as stated. *)
Theorem Search_command_policy :
  (forall (table query : string) (limit offset : N)
          (and_terms not_terms : list string) (filters : list (string * string))
          (sort_column : string) (sort_desc : bool),
      exists sort_clause limit_clause : string,
        Search_command table query limit offset and_terms not_terms filters
                       sort_column sort_desc
        = Search_head table query and_terms not_terms filters
            ++ sort_clause ++ limit_clause /\
        (sort_column <> "" -> sort_desc = true ->
           sort_clause = " SORT " ++ sort_column ++ " DESC") /\
        (sort_column <> "" -> sort_desc = false ->
           sort_clause = " SORT " ++ sort_column ++ " ASC") /\
        (sort_column = "" -> sort_desc = false -> sort_clause = " SORT ASC") /\
        (sort_column = "" -> sort_desc = true -> sort_clause = "") /\
        ((0 < limit)%N -> (0 < offset)%N ->
           limit_clause = " LIMIT " ++ decimal offset ++ "," ++ decimal limit) /\
        ((0 < limit)%N -> offset = 0%N ->
           limit_clause = " LIMIT " ++ decimal limit) /\
        (limit = 0%N -> limit_clause = "")) /\
  Search_command "docs" "hello" 10 20 [] [] [] "" true
    = "SEARCH docs hello LIMIT 20,10" /\
  Search_command "docs" "hello" 10 20 [] [] [] "" false
    = "SEARCH docs hello SORT ASC LIMIT 20,10".
Proof.
  split; [|split; reflexivity].
  intros table query limit offset and_terms not_terms filters sort_column sort_desc.
  exists (if negb (sort_column =? "")
          then " SORT " ++ sort_column ++ (if sort_desc then " DESC" else " ASC")
          else if negb sort_desc then " SORT ASC" else "").
  exists (if (0 <? limit)%N && (0 <? offset)%N
          then " LIMIT " ++ decimal offset ++ "," ++ decimal limit
          else if (0 <? limit)%N then " LIMIT " ++ decimal limit else "").
  split.
  - unfold Search_command, Search_head.
    set (head := append_filters _ filters).
    destruct (negb (sort_column =? "")), sort_desc, ((0 <? limit)%N), ((0 <? offset)%N);
      cbv beta iota zeta delta [andb negb];
      subst head; rewrite ?append_assoc, ?append_nil_r; reflexivity.
  - repeat split.
    + intros Hc ->. apply String.eqb_neq in Hc. now rewrite Hc.
    + intros Hc ->. apply String.eqb_neq in Hc. now rewrite Hc.
    + intros -> ->. reflexivity.
    + intros -> ->. reflexivity.
    + intros Hl Ho. apply N.ltb_lt in Hl, Ho. now rewrite Hl, Ho.
    + intros Hl ->. apply N.ltb_lt in Hl. now rewrite Hl.
    + intros ->. reflexivity.
Qed.

(** The policy at the spec's example: no column, descending, limit 10 and
    offset 20; the two clauses are recovered from the policy alone. *)
Lemma Search_command_policy_witness :
  Search_command "docs" "hello" 10 20 [] [] [] "" true
  = Search_head "docs" "hello" [] [] [] ++ "" ++ " LIMIT " ++ decimal 20 ++ "," ++ decimal 10.
Proof.
  destruct (proj1 Search_command_policy "docs" "hello" 10%N 20%N [] [] [] "" true)
    as (sort_clause & limit_clause & Hcmd & _ & _ & _ & Hsort & Hlimit & _ & _).
  rewrite Hcmd, (Hsort eq_refl eq_refl), (Hlimit eq_refl eq_refl).
  reflexivity.
Defined.

(** ** Connection and [SendCommand] *)

Lemma SendCommand_response (os : System) (st st' : Impl) (cmd response : string) :
  SendCommand os st cmd = (inl response, st') -> st' = st.
Proof.
  unfold SendCommand.
  destruct (negb (IsConnected st)); [discriminate|].
  destruct (sys_send os (cmd ++ CRLF) <? 0)%Z; [discriminate|].
  destruct (sys_recv os (cmd ++ CRLF)) as [|bytes]; [discriminate|].
  destruct (first_bytes _ bytes); [discriminate|].
  now intros [= _ <-].
Qed.

Lemma SendCommand_error (os : System) (st st' : Impl) (cmd : string) (err : Error) :
  SendCommand os st cmd = (inr err, st') -> GetLastError st' = message err.
Proof.
  unfold SendCommand.
  destruct (negb (IsConnected st)); [now intros [= <- <-]|].
  destruct (sys_send os (cmd ++ CRLF) <? 0)%Z; [now intros [= <- <-]|].
  destruct (sys_recv os (cmd ++ CRLF)) as [|bytes]; [now intros [= <- <-]|].
  destruct (first_bytes _ bytes); [now intros [= <- <-] | discriminate].
Qed.

Lemma exchange_response {T : Type} (os : System) (st st' : Impl) (cmd response : string)
    (decoder : string -> outcome (T + Error)) :
  SendCommand os st cmd = (inl response, st') ->
  exchange os st cmd decoder = (decoder response, st').
Proof. unfold exchange. now intros ->. Qed.

Lemma exchange_error {T : Type} (os : System) (st st' : Impl) (cmd : string) (err : Error)
    (decoder : string -> outcome (T + Error)) :
  SendCommand os st cmd = (inr err, st') ->
  exchange os st cmd decoder = (Returns (inr err), st').
Proof. unfold exchange. now intros ->. Qed.

Lemma exchange_ack_response (os : System) (st st' : Impl) (cmd response : string) :
  SendCommand os st cmd = (inl response, st') ->
  exchange_ack os st cmd = (ack_response response, st').
Proof. unfold exchange_ack. now intros ->. Qed.

Lemma exchange_ack_error (os : System) (st st' : Impl) (cmd : string) (err : Error) :
  SendCommand os st cmd = (inr err, st') ->
  exchange_ack os st cmd = (Returns (Some (message err)), st').
Proof. unfold exchange_ack. now intros ->. Qed.

Section ClientFacts.

Variable double : Type.
Variable stod : string -> outcome double.

(** Every operation is its [SendCommand] step followed by [decode]. *)
Lemma run_response (os : System) (st st' : Impl) (c : Command) (response : string) :
  SendCommand os st (command_line c) = (inl response, st') ->
  run double stod os st c = (decode double stod c response, st').
Proof.
  intros H. destruct c; simpl in H; simpl; unfold tagged;
    unfold Search, Count, Get, Info, GetConfig, Save, Load, GetReplicationStatus,
           StartReplication, StopReplication, EnableDebug, DisableDebug;
    first [ rewrite (exchange_response _ _ _ _ _ _ H)
          | rewrite (exchange_ack_response _ _ _ _ _ H) ];
    simpl; unfold map_outcome;
    match goal with |- (match ?m with _ => _ end, _) = _ => now destruct m end.
Qed.

Lemma run_transport_error (os : System) (st st' : Impl) (c : Command) (err : Error) :
  SendCommand os st (command_line c) = (inr err, st') ->
  run double stod os st c = (Returns (transport_failure double c err), st').
Proof.
  intros H. destruct c; simpl in H; simpl; unfold tagged;
    unfold Search, Count, Get, Info, GetConfig, Save, Load, GetReplicationStatus,
           StartReplication, StopReplication, EnableDebug, DisableDebug;
    first [ rewrite (exchange_error _ _ _ _ _ _ H)
          | rewrite (exchange_ack_error _ _ _ _ _ H) ];
    reflexivity.
Qed.

(** On an ERROR line every decoder extracts the response without its
    first six characters, or throws when there are fewer than six. *)
Lemma decode_error_line (c : Command) (response : string) :
  find_is_0 response "ERROR" = true ->
  ((6 <= String.length response)%nat ->
     exists r, decode double stod c response = Returns r /\
               reply_text r = Some (drop 6 response)) /\
  ((String.length response < 6)%nat ->
     decode double stod c response = Throws out_of_range).
Proof.
  intros H. split; intros Hlen.
  - destruct c; simpl;
      unfold Search_response, Count_response, Get_response, Info_response,
             GetConfig_response, Save_response, Load_response,
             GetReplicationStatus_response, ack_response;
      rewrite H; unfold kErrorPrefixLen; rewrite (substr_length _ _ Hlen); simpl;
      eexists; split; reflexivity.
  - destruct c; simpl;
      unfold Search_response, Count_response, Get_response, Info_response,
             GetConfig_response, Save_response, Load_response,
             GetReplicationStatus_response, ack_response;
      rewrite H; unfold kErrorPrefixLen; rewrite (substr_short _ _ Hlen); reflexivity.
Qed.

Lemma decode_error_line_reported (c : Command) (response : string) :
  reports_error_line c = true ->
  find_is_0 response "ERROR" = true ->
  (6 <= String.length response)%nat ->
  exists r, decode double stod c response = Returns r /\
            reply_error double r = Some (drop 6 response).
Proof.
  intros Hc H Hlen.
  destruct c; try discriminate Hc; simpl;
    unfold Search_response, Count_response, Get_response, Info_response,
           GetReplicationStatus_response, ack_response;
    rewrite H; unfold kErrorPrefixLen; rewrite (substr_length _ _ Hlen); simpl;
    eexists; split; reflexivity.
Qed.

Lemma Search_response_other (response : string) :
  find_is_0 response "ERROR" = false ->
  value_or_protocol_error (Search_response double stod response).
Proof.
  intros H. unfold Search_response. rewrite H.
  destruct (find_is_0 response "OK RESULTS"); simpl; auto.
  split_lets. split_bind; exact I.
Qed.

Lemma Count_response_other (response : string) :
  find_is_0 response "ERROR" = false ->
  value_or_protocol_error (Count_response double stod response).
Proof.
  intros H. unfold Count_response. rewrite H.
  destruct (find_is_0 response "OK COUNT"); simpl; auto.
  split_lets. split_bind; exact I.
Qed.

Lemma Get_response_other (response : string) :
  find_is_0 response "ERROR" = false ->
  value_or_protocol_error (Get_response response).
Proof.
  intros H. unfold Get_response. rewrite H.
  destruct (find_is_0 response "OK DOC"); simpl; auto.
  split_lets. exact I.
Qed.

Lemma Info_response_other (response : string) :
  find_is_0 response "ERROR" = false ->
  value_or_protocol_error (Info_response response).
Proof.
  intros H. unfold Info_response. rewrite H.
  destruct (find_is_0 response "OK INFO"); simpl; auto.
  split_bind; exact I.
Qed.

Lemma text_response_other (response : string) :
  find_is_0 response "ERROR" = false ->
  value_or_protocol_error (GetConfig_response response) /\
  value_or_protocol_error (Save_response response) /\
  value_or_protocol_error (Load_response response).
Proof.
  intros H. unfold GetConfig_response, Save_response, Load_response. rewrite H.
  repeat split; simpl; auto.
  - destruct (find_is_0 response "OK SAVED"); simpl; auto. split_bind; exact I.
  - destruct (find_is_0 response "OK LOADED"); simpl; auto. split_bind; exact I.
Qed.

Lemma GetReplicationStatus_response_other (response : string) :
  find_is_0 response "ERROR" = false ->
  value_or_protocol_error (GetReplicationStatus_response response).
Proof.
  intros H. unfold GetReplicationStatus_response. rewrite H.
  destruct (find_is_0 response "OK REPLICATION"); simpl; auto.
Qed.

(** On any other line the only error an operation can report is the fixed
    protocol error. *)
Lemma decode_other_line (c : Command) (response : string) :
  find_is_0 response "ERROR" = false ->
  match decode double stod c response with
  | Returns r => reply_error double r = None \/
                 reply_error double r = Some "Unexpected response format"
  | Throws _ => True
  end.
Proof.
  intros H.
  pose proof (Search_response_other response H) as HS.
  pose proof (Count_response_other response H) as HC.
  pose proof (Get_response_other response H) as HG.
  pose proof (Info_response_other response H) as HI.
  pose proof (text_response_other response H) as (HT1 & HT2 & HT3).
  pose proof (GetReplicationStatus_response_other response H) as HR.
  unfold value_or_protocol_error in *.
  destruct c; simpl; unfold map_outcome, ack_response; rewrite ?H; simpl; auto;
    match goal with
    | |- match match ?m with _ => _ end with _ => _ end =>
        destruct m as [[v|err]|ex]; simpl in *; auto; right; congruence
    end.
Qed.

(** ** The facade operations *)

Lemma find_is_0_take (response : string) :
  find_is_0 response "ERROR" = true <-> take 5 response = "ERROR".
Proof. rewrite find_is_0_prefix. apply (prefix_take "ERROR"). Qed.

(** C10, as amended.  Every operation takes a response for an error line
    exactly when its first five characters are [ERROR], no space being
    required after them: it then hands back the response without its first
    six characters, and throws [std::out_of_range] when the response has
    fewer than six; on any other response the only error it can report is
    the fixed protocol error.  So [ERRORS detected] is an error line whose
    message is [ detected], with the leading space, and the bare [ERROR]
    makes every operation throw. *)
Theorem error_line_classification
    (os : System) (st st' : Impl) (c : Command) (response : string) :
  SendCommand os st (command_line c) = (inl response, st') ->
  (find_is_0 response "ERROR" = true <-> take 5 response = "ERROR") /\
  (take 5 response = "ERROR" -> (6 <= String.length response)%nat ->
     exists r, run double stod os st c = (Returns r, st') /\
               reply_text r = Some (drop 6 response)) /\
  (take 5 response = "ERROR" -> (String.length response < 6)%nat ->
     run double stod os st c = (Throws out_of_range, st')) /\
  (take 5 response <> "ERROR" ->
     match fst (run double stod os st c) with
     | Returns r => reply_error double r = None \/
                    reply_error double r = Some "Unexpected response format"
     | Throws _ => True
     end) /\
  (response = "ERRORS detected" ->
     exists r, run double stod os st c = (Returns r, st') /\
               reply_text r = Some " detected") /\
  (response = "ERROR" -> run double stod os st c = (Throws out_of_range, st')).
Proof.
  intros Hsend. rewrite (run_response os st st' c response Hsend).
  assert (Herr : forall resp, take 5 resp = "ERROR" -> (6 <= String.length resp)%nat ->
            exists r, (decode double stod c resp, st') = (Returns r, st') /\
                      reply_text r = Some (drop 6 resp)).
  { intros resp H5 Hlen. apply find_is_0_take in H5.
    destruct (proj1 (decode_error_line c resp H5) Hlen) as (r & -> & Hr). eauto. }
  assert (Hshort : forall resp, take 5 resp = "ERROR" -> (String.length resp < 6)%nat ->
            (decode double stod c resp, st') = (Throws out_of_range, st')).
  { intros resp H5 Hlen. apply find_is_0_take in H5.
    now rewrite (proj2 (decode_error_line c resp H5) Hlen). }
  split; [apply find_is_0_take|].
  split; [apply Herr|].
  split; [apply Hshort|].
  split; [|split].
  - intros H5. simpl. apply decode_other_line.
    destruct (find_is_0 response "ERROR") eqn:E; [|reflexivity].
    apply find_is_0_take in E. contradiction.
  - intros ->. apply (Herr "ERRORS detected"); [reflexivity | simpl; lia].
  - intros ->. apply (Hshort "ERROR"); [reflexivity | simpl; lia].
Qed.

(** The nine operations whose return statement wraps the text of an ERROR
    line in [Error], or returns it as the optional message, report it as
    their error. *)
Lemma error_line_reported (os : System) (st st' : Impl) (c : Command) (msg : string) :
  reports_error_line c = true ->
  SendCommand os st (command_line c) = (inl ("ERROR " ++ msg), st') ->
  exists r, run double stod os st c = (Returns r, st') /\
            reply_error double r = Some msg.
Proof.
  intros Hc Hsend. rewrite (run_response os st st' c _ Hsend).
  destruct (decode_error_line_reported c ("ERROR " ++ msg) Hc) as (r & -> & Hr).
  - apply (find_is_0_append "ERROR").
  - simpl. lia.
  - exists r. split; [reflexivity | exact Hr].
Qed.

(** C8. After [OK SAVED ] (nine characters) [Save] returns the rest of
    the response as it stands, and after [OK LOADED ] (ten characters)
    [Load] does: the returned path is the server's text, unaltered. *)
Theorem Save_Load_return_path
    (os : System) (st st' : Impl) (filepath path : string) :
  String.length "OK SAVED " = kSavedPrefixLen /\
  String.length "OK LOADED " = kLoadedPrefixLen /\
  (SendCommand os st (Save_command filepath) = (inl ("OK SAVED " ++ path), st') ->
     Save os st filepath = (Returns (inl path), st')) /\
  (SendCommand os st (Load_command filepath) = (inl ("OK LOADED " ++ path), st') ->
     Load os st filepath = (Returns (inl path), st')).
Proof.
  split; [reflexivity|]. split; [reflexivity|]. split; intros Hsend.
  - unfold Save. rewrite (exchange_response _ _ _ _ _ _ Hsend).
    unfold Save_response. rewrite !find_is_0_prefix. simpl.
    now destruct path.
  - unfold Load. rewrite (exchange_response _ _ _ _ _ _ Hsend).
    unfold Load_response. rewrite !find_is_0_prefix. simpl.
    now destruct path.
Qed.

(** C6, as amended.  [Connect] on a client that is already connected fails
    with the message [Already connected] and changes nothing: the socket
    and the rest of the state are as before, and [IsConnected] still
    answers true. *)
Theorem Connect_when_connected (os : System) (st : Impl) :
  IsConnected st = true ->
  Connect os st = (Some "Already connected", st) /\
  sock_ (snd (Connect os st)) = sock_ st /\
  IsConnected (snd (Connect os st)) = true.
Proof.
  intros H. unfold Connect. unfold IsConnected in H. rewrite H. simpl.
  unfold IsConnected. auto.
Qed.

(** C7, as amended.  The last-error slot is overwritten on every transport
    failure: when [SendCommand] returns an error, when a facade operation
    returns the error of its [SendCommand] step, and when [Connect] fails in
    one of its system calls, [GetLastError] afterwards is the message of
    the error just returned.  A result decoded from the server's response
    leaves the slot as it was. *)
Theorem last_error_tracks_transport_failures :
  (forall os st cmd err st',
      SendCommand os st cmd = (inr err, st') -> GetLastError st' = message err) /\
  (forall os st c err st',
      SendCommand os st (command_line c) = (inr err, st') ->
      exists r, run double stod os st c = (Returns r, st') /\
                reply_error double r = Some (message err) /\
                GetLastError st' = message err) /\
  (forall os st msg st',
      IsConnected st = false ->
      Connect os st = (Some msg, st') -> GetLastError st' = msg) /\
  (forall os st c response st',
      SendCommand os st (command_line c) = (inl response, st') ->
      GetLastError (snd (run double stod os st c)) = GetLastError st).
Proof.
  split; [intros os st cmd err st'; apply SendCommand_error|]. split; [|split].
  - intros os st c err st' Hsend.
    exists (transport_failure double c err).
    rewrite (run_transport_error os st st' c err Hsend).
    split; [reflexivity|]. split; [now destruct c|].
    exact (SendCommand_error _ _ _ _ _ Hsend).
  - intros os st msg st' Hc. unfold Connect. unfold IsConnected in Hc. rewrite Hc.
    simpl.
    destruct (sys_socket os <? 0)%Z; [now intros [= <- <-]|].
    destruct (sys_inet_pton os (host (config_ st)) <=? 0)%Z; [now intros [= <- <-]|].
    destruct (sys_connect os <? 0)%Z; [now intros [= <- <-] | discriminate].
  - intros os st c response st' Hsend.
    rewrite (run_response os st st' c response Hsend). simpl.
    now rewrite (SendCommand_response _ _ _ _ _ Hsend).
Qed.

End ClientFacts.

(** ** Token streams *)

Lemma skip_ws_length (s : string) : (String.length (skip_ws s) <= String.length s)%nat.
Proof.
  induction s as [|c s IH]; simpl; [lia|].
  destruct (isspace c); simpl; lia.
Qed.

Lemma skip_ws_head (s : string) (c : ascii) (s' : string) :
  skip_ws s = String c s' -> isspace c = false.
Proof.
  induction s as [|a s IH]; simpl; [discriminate|].
  destruct (isspace a) eqn:E; [exact IH | now intros [= <- _]].
Qed.

Lemma read_word_length (s w r : string) :
  read_word s = (w, r) -> String.length s = (String.length w + String.length r)%nat.
Proof.
  revert w r; induction s as [|c s IH]; intros w r; simpl.
  - now intros [= <- <-].
  - destruct (isspace c).
    + now intros [= <- <-].
    + destruct (read_word s) as [w' r'] eqn:E. intros [= <- <-].
      simpl. now rewrite (IH w' r' eq_refl).
Qed.

(** A successful extraction consumes at least one character. *)
Lemma extract_word_shorter (iss iss' : istringstream) (w : string) :
  extract_word iss = (Some w, iss') ->
  (String.length (pending iss') < String.length (pending iss))%nat.
Proof.
  unfold extract_word. destruct (good iss); [|discriminate].
  pose proof (skip_ws_length (pending iss)) as Hlen.
  destruct (skip_ws (pending iss)) as [|c s] eqn:Hs; [discriminate|].
  apply skip_ws_head in Hs.
  destruct (read_word (String c s)) as [w' r] eqn:Hr. intros [= <- <-]. simpl.
  pose proof (read_word_length _ _ _ Hr) as Hw.
  simpl in Hr. rewrite Hs in Hr. destruct (read_word s); injection Hr as <- <-.
  simpl in *. lia.
Qed.

(** Any fuel above the length of the input reads the same tokens. *)
Lemma read_tokens_fuel (fuel1 fuel2 : nat) (iss : istringstream) :
  (String.length (pending iss) < fuel1)%nat ->
  (String.length (pending iss) < fuel2)%nat ->
  read_tokens fuel1 iss = read_tokens fuel2 iss.
Proof.
  revert fuel2 iss; induction fuel1 as [|fuel1 IH]; intros fuel2 iss H1 H2; [lia|].
  destruct fuel2 as [|fuel2]; [lia|]. simpl.
  destruct (extract_word iss) as [[w|] iss'] eqn:E; [|reflexivity].
  apply extract_word_shorter in E. f_equal. apply IH; lia.
Qed.

Lemma read_word_token (token rest : string) :
  no_space token = true -> at_boundary rest -> read_word (token ++ rest) = (token, rest).
Proof.
  intros Ht Hr. induction token as [|c token IH]; simpl in *.
  - destruct rest as [|d rest]; [reflexivity|]. simpl in *. now rewrite Hr.
  - apply andb_true_iff in Ht as [Hc Ht]. apply negb_true_iff in Hc.
    rewrite Hc, (IH Ht). reflexivity.
Qed.

Lemma skip_ws_word (token rest : string) :
  is_word token -> skip_ws (token ++ rest) = token ++ rest.
Proof.
  intros [Hne Ht]. destruct token as [|c token]; [now elim Hne|].
  simpl in *. apply andb_true_iff in Ht as [Hc _]. apply negb_true_iff in Hc.
  now rewrite Hc.
Qed.

Lemma extract_word_spaced (token rest : string) :
  is_word token -> at_boundary rest ->
  extract_word (mk_iss (" " ++ token ++ rest) true) = (Some token, mk_iss rest true).
Proof.
  intros Hword Hr. unfold extract_word. cbn [good pending].
  change (skip_ws (" " ++ token ++ rest)) with (skip_ws (token ++ rest)).
  rewrite (skip_ws_word token rest Hword).
  destruct Hword as [Hne Ht].
  pose proof (read_word_token token rest Ht Hr) as Hw.
  destruct token as [|c token]; [now elim Hne|].
  cbn [append] in *. now rewrite Hw.
Qed.

Lemma spaced_at_boundary (tokens : list string) : at_boundary (spaced tokens).
Proof. destruct tokens; simpl; [exact I | reflexivity]. Qed.

Lemma spaced_app (l1 l2 : list string) :
  spaced (l1 ++ l2)%list = spaced l1 ++ spaced l2.
Proof.
  induction l1 as [|t l1 IH]; simpl; [reflexivity|].
  now rewrite IH, append_assoc.
Qed.

(** Reading back a line of tokens gives the tokens. *)
Lemma remaining_tokens_spaced (tokens : list string) :
  Forall is_word tokens ->
  remaining_tokens (mk_iss (spaced tokens) true) = tokens.
Proof.
  induction 1 as [|token tokens Ht _ IH]; [reflexivity|].
  unfold remaining_tokens. cbn [read_tokens spaced pending].
  rewrite (extract_word_spaced token (spaced tokens) Ht (spaced_at_boundary tokens)).
  f_equal. transitivity (remaining_tokens (mk_iss (spaced tokens) true)); [|exact IH].
  apply read_tokens_fuel; simpl.
  - rewrite length_append. lia.
  - lia.
Qed.

(** ** Numbers in decimal *)

Lemma digit_char_ok (d : N) :
  (d < 10)%N -> is_digit (digit_char d) = true /\ digit_value (digit_char d) = d.
Proof.
  intros H. assert (Hk : (N.to_nat d < 10)%nat) by lia.
  rewrite <- (N2Nat.id d). unfold digit_char. rewrite Nat2N.id.
  remember (N.to_nat d) as k eqn:E. clear E H.
  do 10 (destruct k as [|k]; [split; reflexivity|]). lia.
Qed.

Lemma is_digit_not_space (c : ascii) : is_digit c = true -> isspace c = false.
Proof.
  intros H. unfold isspace.
  repeat match goal with
         | |- context [Ascii.eqb c ?x] =>
             destruct (Ascii.eqb_spec c x) as [->|_]; [discriminate H|]
         end.
  reflexivity.
Qed.

Lemma is_digit_not_sign (c : ascii) :
  is_digit c = true -> Ascii.eqb c "-" = false /\ Ascii.eqb c "+" = false.
Proof.
  intros H. split.
  - destruct (Ascii.eqb_spec c "-") as [->|_]; [discriminate H | reflexivity].
  - destruct (Ascii.eqb_spec c "+") as [->|_]; [discriminate H | reflexivity].
Qed.

Lemma all_digits_app (a b : string) :
  all_digits (a ++ b) = all_digits a && all_digits b.
Proof.
  induction a as [|c a IH]; simpl; [reflexivity|].
  now rewrite IH, andb_assoc.
Qed.

Lemma digits_value_app (acc : N) (a b : string) :
  digits_value acc (a ++ b) = digits_value (digits_value acc a) b.
Proof. revert acc; induction a as [|c a IH]; intros acc; simpl; [reflexivity | apply IH]. Qed.

Lemma read_digits_app (ds rest : string) :
  all_digits ds = true -> after_number rest -> read_digits (ds ++ rest) = (ds, rest).
Proof.
  intros Hd Hr. induction ds as [|c ds IH]; simpl in *.
  - destruct rest as [|d rest]; [reflexivity|]. simpl in *. now rewrite Hr.
  - apply andb_true_iff in Hd as [Hc Hd]. now rewrite Hc, (IH Hd).
Qed.

Lemma decimal_loop_spec (fuel : nat) (n : N) (acc : string) :
  (n < 2 ^ N.of_nat fuel)%N -> (0 < fuel)%nat ->
  exists ds, decimal_loop fuel n acc = ds ++ acc /\ ds <> "" /\
             all_digits ds = true /\ digits_value 0 ds = n.
Proof.
  revert n acc; induction fuel as [|fuel IH]; intros n acc Hn Hf; [lia|].
  assert (Hmod : (n mod 10 < 10)%N) by (apply N.mod_lt; lia).
  destruct (digit_char_ok _ Hmod) as [Hdig Hval].
  cbn [decimal_loop]. destruct (N.eqb_spec (n / 10) 0) as [Hq|Hq].
  - exists (String (digit_char (n mod 10)) ""). repeat split.
    + discriminate.
    + cbn [all_digits]. now rewrite Hdig.
    + cbn [digits_value]. rewrite Hval. pose proof (N.div_mod n 10). lia.
  - rewrite Nat2N.inj_succ, N.pow_succ_r' in Hn.
    assert (Hq' : (n / 10 < 2 ^ N.of_nat fuel)%N)
      by (apply N.Div0.div_lt_upper_bound; lia).
    assert (Hf' : (0 < fuel)%nat).
    { destruct fuel; [|lia]. change (2 ^ N.of_nat 0)%N with 1%N in Hq'.
      apply N.lt_1_r in Hq'. contradiction. }
    destruct (IH (n / 10)%N (String (digit_char (n mod 10)) acc) Hq' Hf')
      as (ds & Heq & _ & Hall & Hds).
    exists (ds ++ String (digit_char (n mod 10)) ""). repeat split.
    + now rewrite Heq, append_assoc.
    + destruct ds; discriminate.
    + rewrite all_digits_app, Hall. cbn [all_digits]. now rewrite Hdig.
    + rewrite digits_value_app, Hds. cbn [digits_value]. rewrite Hval.
      pose proof (N.div_mod n 10). lia.
Qed.

(** [decimal n] is a non-empty run of digits that reads back as [n]. *)
Lemma decimal_spec (n : N) :
  decimal n <> "" /\ all_digits (decimal n) = true /\ digits_value 0 (decimal n) = n.
Proof.
  unfold decimal.
  destruct (decimal_loop_spec (S (N.to_nat (N.log2 n))) n "") as (ds & Heq & H).
  - rewrite Nat2N.inj_succ, N2Nat.id.
    destruct n as [|p]; [reflexivity|]. apply N.log2_spec. lia.
  - lia.
  - rewrite Heq, append_nil_r. exact H.
Qed.

Lemma scan_unsigned_decimal (n : N) (rest : string) :
  after_number rest -> scan_unsigned (decimal n ++ rest) = Some (false, n, rest).
Proof.
  intros Hr. destruct (decimal_spec n) as (Hne & Hall & Hval).
  pose proof (read_digits_app (decimal n) rest Hall Hr) as Hread.
  unfold scan_unsigned.
  destruct (decimal n) as [|c ds]; [now elim Hne|].
  cbn [append] in *. cbn [all_digits] in Hall. apply andb_true_iff in Hall as [Hc _].
  destruct (is_digit_not_sign c Hc) as [-> ->].
  rewrite Hread. now rewrite Hval.
Qed.

Lemma skip_ws_decimal (n : N) (rest : string) :
  skip_ws (decimal n ++ rest) = decimal n ++ rest.
Proof.
  destruct (decimal_spec n) as (Hne & Hall & _).
  destruct (decimal n) as [|c ds]; [now elim Hne|].
  cbn [append skip_ws all_digits] in *. apply andb_true_iff in Hall as [Hc _].
  now rewrite (is_digit_not_space c Hc).
Qed.

(** Reading a count printed in decimal gives the count back. *)
Lemma extract_u64_decimal (n value : N) (rest : string) :
  (n <= UINT64_MAX)%N -> after_number rest ->
  extract_u64 (mk_iss (" " ++ decimal n ++ rest) true) value = (n, mk_iss rest true).
Proof.
  intros Hn Hr. unfold extract_u64. cbn [good pending].
  change (skip_ws (" " ++ decimal n ++ rest)) with (skip_ws (decimal n ++ rest)).
  rewrite skip_ws_decimal.
  pose proof (scan_unsigned_decimal n rest Hr) as Hscan.
  destruct (decimal_spec n) as (Hne & _).
  destruct (decimal n) as [|c ds]; [now elim Hne|].
  cbn [append] in *. rewrite Hscan.
  destruct (N.ltb_spec UINT64_MAX n); [lia | reflexivity].
Qed.

(** ** Search results and debug blocks *)

Lemma find_debug_index_absent (ids : list string) :
  Forall (fun id => id <> "DEBUG") ids -> find_debug_index ids = List.length ids.
Proof.
  induction 1 as [|id ids Hid _ IH]; simpl; [reflexivity|].
  apply String.eqb_neq in Hid. now rewrite Hid, IH.
Qed.

Lemma find_debug_index_marker (ids rest : list string) :
  Forall (fun id => id <> "DEBUG") ids ->
  find_debug_index (ids ++ "DEBUG" :: rest)%list = List.length ids.
Proof.
  induction 1 as [|id ids Hid _ IH]; simpl; [reflexivity|].
  apply String.eqb_neq in Hid. now rewrite Hid, IH.
Qed.

Lemma find_char_append (key value : string) (c : ascii) :
  find_char key c = None ->
  find_char (key ++ String c value) c = Some (String.length key).
Proof.
  induction key as [|a key IH]; simpl.
  - now rewrite Ascii.eqb_refl.
  - destruct (Ascii.eqb a c); [discriminate|].
    destruct (find_char key c); [discriminate|]. intros _. now rewrite IH.
Qed.

Lemma take_append (p s : string) : take (String.length p) (p ++ s) = p.
Proof. induction p as [|c p IH]; simpl; [now destruct s | now rewrite IH]. Qed.

Lemma spaced_after_number (tokens : list string) : after_number (spaced tokens).
Proof. destruct tokens; simpl; [exact I | reflexivity]. Qed.

Section DebugFacts.

Variable double : Type.
Variable stod : string -> outcome double.

(** A [key=value] token reaches the chain of comparisons with its key and
    its value. *)
Lemma debug_token_pair (info : DebugInfo double) (key value : string) :
  find_char key "=" = None ->
  debug_token double stod info (key ++ "=" ++ value) = debug_field double stod info key value.
Proof.
  intros H. unfold debug_token.
  change (key ++ "=" ++ value) with (key ++ String "=" value).
  rewrite (find_char_append key value "=" H), take_append.
  replace (String.length key + 1)%nat with (String.length (key ++ "=")).
  - rewrite <- (drop_append (key ++ "=") value) at 2.
    now rewrite append_assoc.
  - rewrite length_append. reflexivity.
Qed.

(** A key outside the known ones changes nothing. *)
Lemma debug_field_unknown (info : DebugInfo double) (key value : string) :
  ~ In key debug_keys -> debug_field double stod info key value = Returns info.
Proof.
  intros H. unfold debug_field.
  repeat match goal with
         | |- context [(key =? ?k)%string] =>
             destruct (String.eqb_spec key k) as [->|_];
             [exfalso; apply H; unfold debug_keys; simpl; tauto|]
         end.
  reflexivity.
Qed.

(** The decoding of a well-formed RESULTS line, whatever its tokens. *)
Lemma Search_response_tokens (n : N) (tokens : list string) :
  (n <= UINT64_MAX)%N -> Forall is_word tokens ->
  Search_response double stod ("OK RESULTS " ++ decimal n ++ spaced tokens) =
  (dbg <- (if (find_debug_index tokens <? List.length tokens)%nat
           then ParseDebugInfo double stod tokens (find_debug_index tokens)
           else Returns None) ;;
   Returns (inl (mkSearchResponse n (firstn (find_debug_index tokens) tokens) dbg))).
Proof.
  intros Hn Htokens. unfold Search_response.
  pose proof (extract_u64_decimal n 0 (spaced tokens) Hn (spaced_after_number tokens)) as Hcount.
  pose proof (remaining_tokens_spaced tokens Htokens) as Hrest.
  revert Hcount. generalize (decimal n ++ spaced tokens). intros line Hcount.
  replace (find_is_0 ("OK RESULTS " ++ line) "ERROR") with false
    by (rewrite find_is_0_prefix; reflexivity).
  replace (find_is_0 ("OK RESULTS " ++ line) "OK RESULTS") with true
    by (rewrite find_is_0_prefix; reflexivity).
  cbn [negb].
  change (extract_word (open_stream ("OK RESULTS " ++ line)))
    with (Some "OK", mk_iss (" RESULTS " ++ line) true).
  cbv iota beta.
  change (extract_word (mk_iss (" RESULTS " ++ line) true))
    with (Some "RESULTS", mk_iss (" " ++ line) true).
  cbv iota beta.
  rewrite Hcount, Hrest. reflexivity.
Qed.

(** C4. On [OK RESULTS <n> ...] the count is [n]; the tokens after it, up
    to a [DEBUG] token or all of them when there is none, are the result
    identifiers in order; the tokens after [DEBUG] are folded into a
    [DebugInfo], each [key=value] going through the chain of known keys, an
    unknown key and a token without [=] changing nothing.  The two
    responses of the spec's example decode as stated. *)
Theorem Search_response_results :
  (forall (n : N) (ids : list string),
      (n <= UINT64_MAX)%N -> Forall is_word ids ->
      Forall (fun id => id <> "DEBUG") ids ->
      Search_response double stod ("OK RESULTS " ++ decimal n ++ spaced ids)
      = Returns (inl (mkSearchResponse n ids None))) /\
  (forall (n : N) (ids dbg : list string),
      (n <= UINT64_MAX)%N -> Forall is_word ids ->
      Forall (fun id => id <> "DEBUG") ids -> Forall is_word dbg ->
      Search_response double stod
        ("OK RESULTS " ++ decimal n ++ spaced ids ++ " DEBUG" ++ spaced dbg)
      = (info <- debug_loop double stod empty_debug dbg ;;
         Returns (inl (mkSearchResponse n ids (Some info))))) /\
  (forall (info : DebugInfo double) (key value : string),
      find_char key "=" = None ->
      debug_token double stod info (key ++ "=" ++ value)
      = debug_field double stod info key value) /\
  (forall (info : DebugInfo double) (key value : string),
      ~ In key debug_keys -> debug_field double stod info key value = Returns info) /\
  (forall (info : DebugInfo double) (token : string),
      find_char token "=" = None -> debug_token double stod info token = Returns info) /\
  Search_response double stod "OK RESULTS 3 a1 a2 a3"
  = Returns (inl (mkSearchResponse 3 ["a1"; "a2"; "a3"] None)) /\
  (forall d : double,
      stod "1.5" = Returns d ->
      Search_response double stod "OK RESULTS 2 x1 x2 DEBUG query_time=1.5 terms=3"
      = Returns (inl (mkSearchResponse 2 ["x1"; "x2"]
                        (Some (mkDebugInfo (Some d) None None (Some 3%N) None None
                                           None None None None None))))).
Proof.
  split; [|split; [|split; [|split; [|split; [|split]]]]].
  - intros n ids Hn Hids Hno.
    rewrite (Search_response_tokens n ids Hn Hids), (find_debug_index_absent ids Hno).
    rewrite Nat.ltb_irrefl, firstn_all. reflexivity.
  - intros n ids dbg Hn Hids Hno Hdbg.
    assert (Hword : is_word "DEBUG") by (split; [discriminate | reflexivity]).
    assert (Hall : Forall is_word (ids ++ "DEBUG" :: dbg)%list).
    { apply Forall_app. split; [exact Hids | now constructor]. }
    replace (spaced ids ++ " DEBUG" ++ spaced dbg)
      with (spaced (ids ++ "DEBUG" :: dbg)%list)
      by (rewrite spaced_app; reflexivity).
    rewrite (Search_response_tokens n _ Hn Hall), (find_debug_index_marker ids dbg Hno).
    replace (List.length ids <? List.length (ids ++ "DEBUG" :: dbg)%list)%nat with true
      by (symmetry; apply Nat.ltb_lt; rewrite length_app; simpl; lia).
    unfold ParseDebugInfo.
    replace (List.length (ids ++ "DEBUG" :: dbg)%list <=? List.length ids)%nat with false
      by (symmetry; apply Nat.leb_gt; rewrite length_app; simpl; lia).
    rewrite app_nth2, Nat.sub_diag by lia. cbn [nth orb negb String.eqb].
    replace ("DEBUG" =? "DEBUG") with true by reflexivity. cbn [negb].
    replace (skipn (List.length ids + 1) (ids ++ "DEBUG" :: dbg)%list) with dbg.
    + rewrite firstn_app, firstn_all, Nat.sub_diag. cbn [firstn].
      rewrite app_nil_r.
      destruct (debug_loop double stod empty_debug dbg); reflexivity.
    + rewrite skipn_app, skipn_all2 by lia.
      replace (List.length ids + 1 - List.length ids)%nat with 1%nat by lia.
      reflexivity.
  - exact debug_token_pair.
  - exact debug_field_unknown.
  - intros info token H. unfold debug_token. now rewrite H.
  - reflexivity.
  - intros d Hd.
    vm_compute. rewrite Hd. reflexivity.
Qed.

End DebugFacts.

(** ** The tokenizer *)

Lemma windows_length (n : nat) (codepoints : list N) :
  (1 <= n)%nat ->
  List.length (windows n codepoints) = (List.length codepoints + 1 - n)%nat.
Proof.
  intros Hn. induction codepoints as [|c rest IH]; [cbn [windows List.length]; lia|].
  cbn [windows]. destruct (Nat.leb_spec n (List.length (c :: rest))) as [H|H].
  - cbn [List.length] in *. rewrite IH. lia.
  - cbn [List.length] in *. lia.
Qed.

(** C9. For [n >= 1] the number of n-grams of a text is
    [max 0 (codepoints - n + 1)], so a text with fewer than [n] codepoints
    has none. *)
Theorem GenerateNgrams_length
    (Utf8ToCodepoints : string -> list N) (CodepointsToUtf8 : list N -> string)
    (text : string) (n : Z) :
  (1 <= n)%Z ->
  Z.of_nat (List.length (GenerateNgrams Utf8ToCodepoints CodepointsToUtf8 text n))
  = Z.max 0 (Z.of_nat (List.length (Utf8ToCodepoints text)) - n + 1) /\
  ((Z.of_nat (List.length (Utf8ToCodepoints text)) < n)%Z ->
     GenerateNgrams Utf8ToCodepoints CodepointsToUtf8 text n = []).
Proof.
  intros Hn. unfold GenerateNgrams.
  assert (Hlen : List.length (map CodepointsToUtf8
                   (windows (Z.to_nat n) (Utf8ToCodepoints text)))
                 = (List.length (Utf8ToCodepoints text) + 1 - Z.to_nat n)%nat).
  { rewrite length_map. apply windows_length. lia. }
  split.
  - rewrite Hlen. lia.
  - intros Hshort. apply length_zero_iff_nil. rewrite Hlen. lia.
Qed.

Lemma GenerateNgrams_length_witness :
  Z.of_nat (List.length (GenerateNgrams ascii_codepoints ascii_text "hello" 2)) = 4%Z /\
  GenerateNgrams ascii_codepoints ascii_text "a" 2 = [].
Proof.
  split.
  - exact (proj1 (GenerateNgrams_length ascii_codepoints ascii_text "hello" 2
                    ltac:(discriminate))).
  - apply (proj2 (GenerateNgrams_length ascii_codepoints ascii_text "a" 2
                    ltac:(discriminate))).
    reflexivity.
Defined.

(** ** The operations on concrete exchanges *)

(** C1 on the code.  When the server answers [ERROR no such table],
    [GetConfig], [Save] and [Load] return the message as the string
    alternative of their result, that is as a value and not as an [Error]. *)
Theorem error_line_returned_as_value :
  let os := server_says ("ERROR no such table" ++ CRLF) in
  GetConfig os connected_client = (Returns (inl "no such table"), connected_client) /\
  Save os connected_client "snapshot.bin"
  = (Returns (inl "no such table"), connected_client) /\
  Load os connected_client "snapshot.bin"
  = (Returns (inl "no such table"), connected_client).
Proof. repeat split; reflexivity. Qed.

(** C2 on the code.  A count token that is not a number makes the
    extraction fail silently: [Search] and [Count] succeed with a count of
    zero (and [Search] with no result at all). *)
Theorem count_token_defaults_to_zero (double : Type) (stod : string -> outcome double) :
  Search double stod (server_says ("OK RESULTS abc a1 a2" ++ CRLF)) connected_client
         "docs" "hello" 0 0 [] [] [] "" true
  = (Returns (inl (mkSearchResponse 0 [] None)), connected_client) /\
  Count double stod (server_says ("OK COUNT abc" ++ CRLF)) connected_client
        "docs" "hello" [] [] []
  = (Returns (inl (mkCountResponse 0 None)), connected_client).
Proof. split; reflexivity. Qed.

(** A debug value that is not a number does raise, through [std::stoul]. *)
Lemma debug_value_failure_propagates (double : Type) (stod : string -> outcome double) :
  Count_response double stod "OK COUNT 5 DEBUG terms=abc" = Throws invalid_argument.
Proof. reflexivity. Qed.

(** C6 as stated fails: the second [Connect] answers [Already connected],
    with a capital, not [already connected]. *)
Lemma Connect_twice_message :
  let os := server_says "" in
  let first := Connect os fresh_client in
  let second := Connect os (snd first) in
  fst first = None /\
  fst second = Some "Already connected" /\
  fst second <> Some "already connected".
Proof. repeat split. discriminate. Qed.

(** On that path the message is returned without being stored. *)
Lemma Connect_when_connected_keeps_last_error :
  fst (Connect (server_says "") connected_client) = Some "Already connected" /\
  GetLastError (snd (Connect (server_says "") connected_client)) = "".
Proof. split; reflexivity. Qed.

Lemma Connect_when_connected_witness :
  Connect (server_says "") connected_client = (Some "Already connected", connected_client) /\
  sock_ (snd (Connect (server_says "") connected_client)) = 3%Z /\
  IsConnected (snd (Connect (server_says "") connected_client)) = true.
Proof. exact (Connect_when_connected (server_says "") connected_client eq_refl). Defined.

(** C7 as stated fails: [Search] returns the server's error while the
    last-error slot still holds what it held before. *)
Lemma last_error_misses_server_error :
  let r := Search Q decimal_literal (server_says ("ERROR no such table" ++ CRLF))
                  connected_client "docs" "hello" 0 0 [] [] [] "" true in
  fst r = Returns (inr (mkError "no such table")) /\
  GetLastError (snd r) = "" /\
  GetLastError (snd r) <> "no such table".
Proof. repeat split. discriminate. Qed.

Lemma last_error_tracks_transport_failures_witness :
  GetLastError (snd (SendCommand (server_says "") fresh_client "INFO")) = "Not connected" /\
  (exists r, run Q decimal_literal (server_says "") fresh_client CmdInfo
             = (Returns r, set_last_error fresh_client "Not connected") /\
             reply_error Q r = Some "Not connected" /\
             GetLastError (set_last_error fresh_client "Not connected") = "Not connected") /\
  GetLastError (snd (Connect no_descriptors fresh_client))
  = "Failed to create socket: Too many open files" /\
  GetLastError (snd (run Q decimal_literal (server_says ("OK INFO" ++ CRLF))
                         connected_client CmdInfo)) = "".
Proof.
  destruct (last_error_tracks_transport_failures Q decimal_literal)
    as (Hsend & Hrun & Hconnect & Hdecoded).
  split; [|split; [|split]].
  - exact (Hsend (server_says "") fresh_client "INFO" (mkError "Not connected")
                 (set_last_error fresh_client "Not connected") eq_refl).
  - exact (Hrun (server_says "") fresh_client CmdInfo (mkError "Not connected")
                (set_last_error fresh_client "Not connected") eq_refl).
  - exact (Hconnect no_descriptors fresh_client
                    "Failed to create socket: Too many open files"
                    (snd (Connect no_descriptors fresh_client)) eq_refl eq_refl).
  - exact (Hdecoded (server_says ("OK INFO" ++ CRLF)) connected_client CmdInfo
                    "OK INFO" connected_client eq_refl).
Defined.

Lemma Save_Load_return_path_witness :
  Save (server_says ("OK SAVED /var/lib/mygram/dump 1.bin" ++ CRLF)) connected_client ""
  = (Returns (inl "/var/lib/mygram/dump 1.bin"), connected_client) /\
  Load (server_says ("OK LOADED /var/lib/mygram/dump 1.bin" ++ CRLF)) connected_client
       "dump 1.bin"
  = (Returns (inl "/var/lib/mygram/dump 1.bin"), connected_client).
Proof.
  split.
  - exact (proj1 (proj2 (proj2 (Save_Load_return_path
             (server_says ("OK SAVED /var/lib/mygram/dump 1.bin" ++ CRLF))
             connected_client connected_client "" "/var/lib/mygram/dump 1.bin")))
             eq_refl).
  - exact (proj2 (proj2 (proj2 (Save_Load_return_path
             (server_says ("OK LOADED /var/lib/mygram/dump 1.bin" ++ CRLF))
             connected_client connected_client "dump 1.bin"
             "/var/lib/mygram/dump 1.bin")))
             eq_refl).
Defined.

(** C10 as stated fails: six characters are removed from [ERRORS detected],
    so the message is [ detected] and not [S detected]. *)
Lemma ERRORS_detected_message :
  let r := fst (Search Q decimal_literal (server_says ("ERRORS detected" ++ CRLF))
                       connected_client "docs" "hello" 0 0 [] [] [] "" true) in
  r = Returns (inr (mkError " detected")) /\
  r <> Returns (inr (mkError "S detected")).
Proof. split; [reflexivity | discriminate]. Qed.

Lemma error_line_classification_witness :
  (exists r, run Q decimal_literal (server_says ("ERRORS detected" ++ CRLF))
                 connected_client (CmdGet "docs" "42") = (Returns r, connected_client) /\
             reply_text r = Some " detected") /\
  run Q decimal_literal (server_says ("ERROR" ++ CRLF)) connected_client CmdGetConfig
  = (Throws out_of_range, connected_client) /\
  match fst (run Q decimal_literal (server_says ("OK" ++ CRLF)) connected_client
                 CmdStopReplication) with
  | Returns r => reply_error Q r = None \/
                 reply_error Q r = Some "Unexpected response format"
  | Throws _ => True
  end.
Proof.
  split; [|split].
  - destruct (error_line_classification Q decimal_literal
                (server_says ("ERRORS detected" ++ CRLF)) connected_client connected_client
                (CmdGet "docs" "42") "ERRORS detected" eq_refl)
      as (_ & Hlong & _ & _ & _ & _).
    apply Hlong; [reflexivity | simpl; lia].
  - destruct (error_line_classification Q decimal_literal
                (server_says ("ERROR" ++ CRLF)) connected_client connected_client
                CmdGetConfig "ERROR" eq_refl)
      as (_ & _ & Hshort & _ & _ & _).
    apply Hshort; [reflexivity | simpl; lia].
  - destruct (error_line_classification Q decimal_literal
                (server_says ("OK" ++ CRLF)) connected_client connected_client
                CmdStopReplication "OK" eq_refl)
      as (_ & _ & _ & Hother & _ & _).
    apply Hother. discriminate.
Defined.

Lemma Search_response_results_witness :
  Search_response Q decimal_literal ("OK RESULTS " ++ decimal 3 ++ spaced ["a1"; "a2"; "a3"])
  = Returns (inl (mkSearchResponse 3 ["a1"; "a2"; "a3"] None)) /\
  Search_response Q decimal_literal
    ("OK RESULTS " ++ decimal 2 ++ spaced ["x1"; "x2"] ++ " DEBUG" ++ spaced ["final=7"])
  = Returns (inl (mkSearchResponse 2 ["x1"; "x2"]
                    (Some (mkDebugInfo None None None None None None
                                       None None None (Some 7%N) None)))) /\
  debug_token Q decimal_literal empty_debug "shard=4" = Returns empty_debug /\
  Search_response Q decimal_literal "OK RESULTS 2 x1 x2 DEBUG query_time=1.5 terms=3"
  = Returns (inl (mkSearchResponse 2 ["x1"; "x2"]
                    (Some (mkDebugInfo (Some 1.5%Q) None None (Some 3%N) None None
                                       None None None None None)))).
Proof.
  destruct (Search_response_results Q decimal_literal)
    as (Hids & Hdebug & Hpair & Hunknown & _ & _ & Hexample).
  assert (Hword : forall c1 c2 : ascii, isspace c1 = false -> isspace c2 = false ->
                    is_word (String c1 (String c2 ""))).
  { intros c1 c2 H1 H2. split; [discriminate|]. simpl. now rewrite H1, H2. }
  split; [|split; [|split]].
  - apply Hids.
    + discriminate.
    + repeat constructor; discriminate.
    + repeat constructor; discriminate.
  - apply (Hdebug 2%N ["x1"; "x2"] ["final=7"]).
    + discriminate.
    + repeat constructor; discriminate.
    + repeat constructor; discriminate.
    + repeat constructor; discriminate.
  - change "shard=4" with ("shard" ++ "=" ++ "4").
    rewrite (Hpair empty_debug "shard" "4" eq_refl).
    apply Hunknown. simpl. intuition discriminate.
  - apply Hexample. reflexivity.
Defined.

(** * Further properties of the code *)

(** ** Connection life cycle *)



(** X2. [Disconnect] always leaves the client unconnected, is idempotent
    and keeps the configuration and the last error; a [Connect] whose
    system calls succeed then connects again, with the new descriptor. *)
Theorem Disconnect_then_Connect (os : System) (st : Impl) :
  IsConnected (Disconnect st) = false /\
  Disconnect (Disconnect st) = Disconnect st /\
  config_ (Disconnect st) = config_ st /\
  last_error_ (Disconnect st) = last_error_ st /\
  ((0 <= sys_socket os)%Z -> (0 < sys_inet_pton os (host (config_ st)))%Z ->
   (0 <= sys_connect os)%Z ->
   fst (Connect os (Disconnect st)) = None /\
   sock_ (snd (Connect os (Disconnect st))) = sys_socket os).
Proof.
  assert (Hd : IsConnected (Disconnect st) = false).
  { unfold Disconnect, IsConnected.
    destruct (0 <=? sock_ st)%Z eqn:E; [reflexivity | exact E]. }
  assert (Hcfg : config_ (Disconnect st) = config_ st).
  { unfold Disconnect. now destruct (0 <=? sock_ st)%Z. }
  split; [exact Hd|]. split; [|split; [exact Hcfg|split]].
  - unfold Disconnect at 1. unfold IsConnected in Hd. now rewrite Hd.
  - unfold Disconnect. now destruct (0 <=? sock_ st)%Z.
  - intros Hs Hp Hk. unfold Connect. unfold IsConnected in Hd. rewrite Hd.
    cbn [set_sock sock_ config_ last_error_]. rewrite Hcfg.
    destruct (Z.ltb_spec (sys_socket os) 0); [lia|].
    destruct (Z.leb_spec (sys_inet_pton os (host (config_ st))) 0); [lia|].
    destruct (Z.ltb_spec (sys_connect os) 0); [lia|].
    split; reflexivity.
Qed.

Lemma Disconnect_then_Connect_witness :
  fst (Connect (server_says "") (Disconnect connected_client)) = None /\
  sock_ (snd (Connect (server_says "") (Disconnect connected_client))) = 3%Z.
Proof.
  apply (Disconnect_then_Connect (server_says "") connected_client); cbn; lia.
Defined.

(** ** What [SendCommand] hands over *)





Lemma SendCommand_keeps_socket (os : System) (st : Impl) (cmd : string) :
  sock_ (snd (SendCommand os st cmd)) = sock_ st /\
  config_ (snd (SendCommand os st cmd)) = config_ st.
Proof.
  unfold SendCommand.
  destruct (negb (IsConnected st)); [now split|].
  destruct (sys_send os (cmd ++ CRLF) <? 0)%Z; [now split|].
  destruct (sys_recv os (cmd ++ CRLF)) as [|bytes]; [now split|].
  destruct (first_bytes _ bytes); now split.
Qed.



Section FacadeFacts.

Variable double : Type.
Variable stod : string -> outcome double.

(** X4. On a client that is not connected every operation fails at once
    with [Not connected], whatever the system would answer, and stores
    that message in the last-error slot. *)
Theorem run_when_disconnected (os : System) (st : Impl) (c : Command) :
  IsConnected st = false ->
  run double stod os st c
  = (Returns (transport_failure double c (mkError "Not connected")),
     set_last_error st "Not connected") /\
  reply_error double (transport_failure double c (mkError "Not connected"))
  = Some "Not connected".
Proof.
  intros Hc. split; [|now destruct c].
  apply run_transport_error. unfold SendCommand. now rewrite Hc.
Qed.

(** X5. No operation opens, closes or replaces the socket, nor changes the
    configuration: [IsConnected] answers after an operation as it did
    before, also when the operation failed because the peer closed the
    connection. *)
Theorem run_keeps_socket (os : System) (st : Impl) (c : Command) :
  sock_ (snd (run double stod os st c)) = sock_ st /\
  config_ (snd (run double stod os st c)) = config_ st /\
  IsConnected (snd (run double stod os st c)) = IsConnected st.
Proof.
  pose proof (SendCommand_keeps_socket os st (command_line c)) as [Hs Hc].
  destruct (SendCommand os st (command_line c)) as [[response|err] st'] eqn:E.
  - rewrite (run_response double stod os st st' c response E).
    cbn [snd] in *. unfold IsConnected. now rewrite Hs.
  - rewrite (run_transport_error double stod os st st' c err E).
    cbn [snd] in *. unfold IsConnected. now rewrite Hs.
Qed.

End FacadeFacts.

Lemma run_when_disconnected_witness :
  run Q decimal_literal no_descriptors fresh_client (CmdSave "dump.bin")
  = (Returns (TextReply Q (inr (mkError "Not connected"))),
     set_last_error fresh_client "Not connected").
Proof.
  exact (proj1 (run_when_disconnected Q decimal_literal no_descriptors fresh_client
                  (CmdSave "dump.bin") eq_refl)).
Defined.

(** ** What the decoders make of any response *)

Lemma read_tokens_failed (fuel : nat) (iss : istringstream) :
  good iss = false -> read_tokens fuel iss = [].
Proof.
  intros H. destruct fuel as [|fuel]; [reflexivity|].
  cbn [read_tokens]. unfold extract_word. now rewrite H.
Qed.

Lemma read_word_no_space (s w r : string) : read_word s = (w, r) -> no_space w = true.
Proof.
  revert w r; induction s as [|c s IH]; intros w r; cbn [read_word].
  - now intros [= <- _].
  - destruct (isspace c) eqn:E; [now intros [= <- _]|].
    destruct (read_word s) as [w' r'] eqn:Hw. intros [= <- _].
    cbn [no_space]. now rewrite E, (IH w' r' eq_refl).
Qed.

Lemma extract_word_is_word (iss iss' : istringstream) (w : string) :
  extract_word iss = (Some w, iss') -> is_word w.
Proof.
  unfold extract_word. destruct (good iss); [|discriminate].
  destruct (skip_ws (pending iss)) as [|c s] eqn:Hs; [discriminate|].
  apply skip_ws_head in Hs.
  destruct (read_word (String c s)) as [w' r] eqn:Hr. intros [= <- _].
  split; [|exact (read_word_no_space _ _ _ Hr)].
  cbn [read_word] in Hr. rewrite Hs in Hr.
  destruct (read_word s). injection Hr as <- _. discriminate.
Qed.

Lemma read_tokens_words (fuel : nat) (iss : istringstream) :
  Forall is_word (read_tokens fuel iss).
Proof.
  revert iss; induction fuel as [|fuel IH]; intros iss; [constructor|].
  cbn [read_tokens].
  destruct (extract_word iss) as [[w|] iss'] eqn:E; [|constructor].
  constructor; [exact (extract_word_is_word _ _ _ E) | apply IH].
Qed.

Lemma firstn_find_debug_index (tokens : list string) :
  Forall (fun id => id <> "DEBUG") (firstn (find_debug_index tokens) tokens).
Proof.
  induction tokens as [|t tokens IH]; [constructor|].
  cbn [find_debug_index]. destruct (String.eqb_spec t "DEBUG") as [->|Hne].
  - constructor.
  - cbn [firstn]. now constructor.
Qed.

Lemma Forall_firstn {A : Type} (P : A -> Prop) (n : nat) (l : list A) :
  Forall P l -> Forall P (firstn n l).
Proof.
  intros H. revert n; induction H as [|x l Hx _ IH]; intros [|n]; cbn; constructor; auto.
Qed.

Lemma apply_sign64_false (magnitude : N) : apply_sign64 false magnitude = magnitude.
Proof. reflexivity. Qed.

Section ParserFacts.

Variable double : Type.
Variable stod : string -> outcome double.

(** X6. Whatever the response, the identifiers [Search] returns are tokens:
    none is empty, none holds white space, none is the word [DEBUG]. *)
Theorem Search_results_are_tokens (response : string) (r : SearchResponse double) :
  Search_response double stod response = Returns (inl r) ->
  Forall (fun id => is_word id /\ id <> "DEBUG") (results r).
Proof.
  unfold Search_response.
  destruct (find_is_0 response "ERROR").
  { destruct (substr response kErrorPrefixLen); discriminate. }
  destruct (find_is_0 response "OK RESULTS"); [|discriminate]. cbn [negb].
  destruct (extract_word (open_stream response)) as [o1 i1].
  destruct (extract_word i1) as [o2 i2].
  destruct (extract_u64 i2 0) as [n i3].
  match goal with |- bind ?m _ = _ -> _ => destruct m as [dbg|e]; [|discriminate] end.
  cbn [bind]. intros [= <-]. cbn [results].
  apply Forall_and.
  - apply Forall_firstn, read_tokens_words.
  - apply firstn_find_debug_index.
Qed.

Lemma Search_response_failed_count (line : string) (v : N) (iss' : istringstream) :
  extract_u64 (mk_iss (" " ++ line) true) 0 = (v, iss') -> good iss' = false ->
  Search_response double stod ("OK RESULTS " ++ line)
  = Returns (inl (mkSearchResponse v [] None)).
Proof.
  intros Hcount Hfail. unfold Search_response.
  replace (find_is_0 ("OK RESULTS " ++ line) "ERROR") with false
    by (rewrite find_is_0_prefix; reflexivity).
  replace (find_is_0 ("OK RESULTS " ++ line) "OK RESULTS") with true
    by (rewrite find_is_0_prefix; reflexivity).
  cbn [negb].
  change (extract_word (open_stream ("OK RESULTS " ++ line)))
    with (Some "OK", mk_iss (" RESULTS " ++ line) true).
  cbv iota beta.
  change (extract_word (mk_iss (" RESULTS " ++ line) true))
    with (Some "RESULTS", mk_iss (" " ++ line) true).
  cbv iota beta. rewrite Hcount.
  unfold remaining_tokens. rewrite (read_tokens_failed _ _ Hfail). reflexivity.
Qed.

(** X7. When the count token of a RESULTS line cannot be converted, [Search]
    still succeeds: with a count of zero when the token starts with neither
    a digit nor a sign, with the largest 64-bit value when the number is
    above it.  In both cases everything after the token is dropped, the
    identifiers and the debug block alike. *)
Theorem Search_response_unreadable_count :
  (forall (c : ascii) (line : string),
      is_digit c = false -> isspace c = false -> c <> "-"%char -> c <> "+"%char ->
      Search_response double stod ("OK RESULTS " ++ String c line)
      = Returns (inl (mkSearchResponse 0 [] None))) /\
  (forall (n : N) (rest : string),
      (UINT64_MAX < n)%N -> after_number rest ->
      Search_response double stod ("OK RESULTS " ++ decimal n ++ rest)
      = Returns (inl (mkSearchResponse UINT64_MAX [] None))).
Proof.
  split.
  - intros c line Hd Hs Hm Hp.
    apply (Search_response_failed_count _ _ (set_fail (mk_iss (" " ++ String c line) true)));
      [|reflexivity].
    unfold extract_u64. cbn [good pending].
    change (skip_ws (" " ++ String c line)) with (skip_ws (String c line)).
    cbn [skip_ws]. rewrite Hs. unfold scan_unsigned.
    apply Ascii.eqb_neq in Hm, Hp. rewrite Hm, Hp.
    cbn [read_digits]. now rewrite Hd.
  - intros n rest Hn Hr.
    apply (Search_response_failed_count _ _ (mk_iss rest false)); [|reflexivity].
    unfold extract_u64. cbn [good pending].
    change (skip_ws (" " ++ decimal n ++ rest)) with (skip_ws (decimal n ++ rest)).
    rewrite skip_ws_decimal.
    pose proof (scan_unsigned_decimal n rest Hr) as Hscan.
    destruct (decimal_spec n) as (Hne & _).
    destruct (decimal n) as [|c ds]; [now elim Hne|].
    cbn [append] in *. rewrite Hscan.
    destruct (N.ltb_spec UINT64_MAX n) as [_|Hle]; [reflexivity | lia].
Qed.

End ParserFacts.

Lemma Search_results_are_tokens_witness :
  Forall (fun id => is_word id /\ id <> "DEBUG") ["a1"; "a2"].
Proof.
  exact (Search_results_are_tokens Q decimal_literal
           ("OK RESULTS 2" ++ String ch_tab "a1  a2 DEBUG final=2")
           (mkSearchResponse 2 ["a1"; "a2"]
              (Some (mkDebugInfo None None None None None None None None None
                                 (Some 2%N) None)))
           eq_refl).
Defined.

Lemma Search_response_unreadable_count_witness :
  Search_response Q decimal_literal "OK RESULTS many a1 a2 DEBUG terms=1"
  = Returns (inl (mkSearchResponse 0 [] None)) /\
  Search_response Q decimal_literal
    ("OK RESULTS " ++ decimal 18446744073709551616 ++ " a1 a2")
  = Returns (inl (mkSearchResponse UINT64_MAX [] None)).
Proof.
  destruct (Search_response_unreadable_count Q decimal_literal) as (Hword & Hbig).
  split.
  - apply (Hword "m"%char "any a1 a2 DEBUG terms=1"); try reflexivity; discriminate.
  - apply (Hbig 18446744073709551616%N " a1 a2"); reflexivity.
Defined.

(** ** Key and value tokens *)

Lemma no_space_app (a b : string) : no_space (a ++ b) = no_space a && no_space b.
Proof.
  induction a as [|c a IH]; cbn [append no_space]; [reflexivity|].
  now rewrite IH, andb_assoc.
Qed.

Lemma pair_token_is_word (kv : string * string) : pair_ok kv -> is_word (pair_token kv).
Proof.
  destruct kv as [k v]. intros (_ & Hk & Hv). unfold pair_token. cbn [fst snd] in *.
  split.
  - destruct k; discriminate.
  - rewrite no_space_app, Hk. cbn [andb]. rewrite no_space_app, Hv. reflexivity.
Qed.

Lemma drop_after_key (key value : string) :
  drop (String.length key + 1) (key ++ "=" ++ value) = value.
Proof.
  replace (String.length key + 1)%nat with (String.length (key ++ "="))
    by (rewrite length_append; reflexivity).
  rewrite <- (drop_append (key ++ "=") value) at 2. now rewrite append_assoc.
Qed.

Lemma key_value_pair_token (kv : string * string) :
  find_char (fst kv) "=" = None -> key_value (pair_token kv) = Some kv.
Proof.
  destruct kv as [k v]. cbn [fst]. intros H. unfold key_value, pair_token. cbn [fst snd].
  change (k ++ "=" ++ v) with (k ++ String "=" v) at 1.
  rewrite (find_char_append k v "=" H), take_append, drop_after_key. reflexivity.
Qed.

Lemma collect_pairs_pair_tokens (pairs : list (string * string)) :
  Forall pair_ok pairs -> collect_pairs (map pair_token pairs) = pairs.
Proof.
  induction 1 as [|kv pairs (Hk & _) _ IH]; [reflexivity|].
  cbn [map collect_pairs]. now rewrite (key_value_pair_token kv Hk), IH.
Qed.

(** A token splits at its first [=]. *)
Lemma find_char_split (token : string) (c : ascii) (pos : nat) :
  find_char token c = Some pos ->
  token = take pos token ++ String c (drop (pos + 1) token) /\
  find_char (take pos token) c = None.
Proof.
  revert pos; induction token as [|a token IH]; intros pos; cbn [find_char]; [discriminate|].
  destruct (Ascii.eqb_spec a c) as [->|Hne].
  - intros [= <-]. cbn. now destruct token.
  - destruct (find_char token c) as [n|] eqn:E; [|discriminate].
    intros [= <-]. destruct (IH n eq_refl) as (Heq & Hnone).
    cbn [take drop Nat.add append find_char]. split; [now rewrite <- Heq|].
    apply Ascii.eqb_neq in Hne. now rewrite Hne, Hnone.
Qed.

Lemma key_value_split (token key value : string) :
  key_value token = Some (key, value) ->
  token = key ++ "=" ++ value /\ find_char key "=" = None.
Proof.
  unfold key_value. destruct (find_char token "=") as [pos|] eqn:E; [|discriminate].
  intros [= <- <-]. exact (find_char_split token "=" pos E).
Qed.

Lemma In_collect_pairs (tokens : list string) (kv : string * string) :
  In kv (collect_pairs tokens) -> exists token, In token tokens /\ key_value token = Some kv.
Proof.
  induction tokens as [|t tokens IH]; cbn [collect_pairs]; [intros []|].
  destruct (key_value t) as [p|] eqn:E.
  - intros [<-|H]; [exists t; split; [now left | exact E]|].
    destruct (IH H) as (token & Hin & Hkv). exists token. split; [now right | exact Hkv].
  - intros H. destruct (IH H) as (token & Hin & Hkv).
    exists token. split; [now right | exact Hkv].
Qed.

(** X8. [ParseKeyValuePairs] splits every token at its first [=]: in each
    pair it returns, whatever the input, the key holds no [=] and neither
    part holds white space; and a line of [key=value] tokens whose keys
    hold no [=] is read back as its pairs, in order and with duplicates. *)
Theorem ParseKeyValuePairs_pairs :
  (forall (str key value : string),
      In (key, value) (ParseKeyValuePairs str) ->
      find_char key "=" = None /\ no_space key = true /\ no_space value = true) /\
  (forall pairs : list (string * string),
      Forall pair_ok pairs ->
      ParseKeyValuePairs (spaced (map pair_token pairs)) = pairs).
Proof.
  split.
  - intros str key value Hin. unfold ParseKeyValuePairs in Hin.
    destruct (In_collect_pairs _ _ Hin) as (token & Htok & Hkv).
    destruct (key_value_split _ _ _ Hkv) as (-> & Hkey).
    pose proof (read_tokens_words (S (String.length (pending (open_stream str))))
                  (open_stream str)) as Hwords.
    rewrite Forall_forall in Hwords. destruct (Hwords _ Htok) as (_ & Hsp).
    rewrite no_space_app in Hsp. apply andb_true_iff in Hsp as [Hk Hv].
    rewrite no_space_app in Hv. apply andb_true_iff in Hv as [_ Hv].
    auto.
  - intros pairs Hok. unfold ParseKeyValuePairs, open_stream.
    rewrite remaining_tokens_spaced.
    + now apply collect_pairs_pair_tokens.
    + apply Forall_map. revert Hok. apply Forall_impl. exact pair_token_is_word.
Qed.

Lemma ParseKeyValuePairs_pairs_witness :
  ParseKeyValuePairs " title=hello a=1 a=2 eq=x=y"
  = [("title", "hello"); ("a", "1"); ("a", "2"); ("eq", "x=y")].
Proof.
  apply (proj2 ParseKeyValuePairs_pairs
           [("title", "hello"); ("a", "1"); ("a", "2"); ("eq", "x=y")]).
  repeat constructor.
Defined.

(** ** Documents, counts and replication status *)

Lemma find_char_app_none (a b : string) (c : ascii) :
  find_char a c = None -> find_char b c = None -> find_char (a ++ b) c = None.
Proof.
  intros Ha Hb. induction a as [|x a IH]; cbn [append find_char] in *; [exact Hb|].
  destruct (Ascii.eqb x c); [discriminate|].
  destruct (find_char a c); [discriminate|]. now rewrite IH.
Qed.

Lemma find_char_no_space (w : string) (c : ascii) :
  isspace c = true -> no_space w = true -> find_char w c = None.
Proof.
  intros Hc. induction w as [|x w IH]; cbn [no_space find_char]; [reflexivity|].
  intros H. apply andb_true_iff in H as [Hx Hw]. apply negb_true_iff in Hx.
  destruct (Ascii.eqb_spec x c) as [->|_]; [congruence|]. now rewrite (IH Hw).
Qed.

Lemma find_char_spaced_lf (tokens : list string) :
  Forall is_word tokens -> find_char (spaced tokens) ch_lf = None.
Proof.
  induction 1 as [|t tokens (_ & Ht) _ IH]; [reflexivity|].
  cbn [spaced]. change (" " ++ t ++ spaced tokens) with (String " " (t ++ spaced tokens)).
  cbn [find_char]. replace (Ascii.eqb " " ch_lf) with false by reflexivity.
  rewrite (find_char_app_none t (spaced tokens) ch_lf); [reflexivity| |exact IH].
  now apply find_char_no_space.
Qed.

Lemma read_until_absent (delim : ascii) (s : string) :
  find_char s delim = None -> read_until delim s = (s, "").
Proof.
  induction s as [|c s IH]; cbn [find_char read_until]; [reflexivity|].
  destruct (Ascii.eqb c delim); [discriminate|].
  destruct (find_char s delim); [discriminate|]. intros _. now rewrite IH.
Qed.

Lemma Get_response_line (pk tail : string) (tokens : list string) :
  extract_word (mk_iss (" " ++ pk ++ tail) true) = (Some pk, mk_iss tail true) ->
  remaining_tokens (mk_iss tail true) = tokens ->
  read_until ch_lf tail = (tail, "") ->
  Get_response ("OK DOC " ++ pk ++ tail)
  = Returns (inl (mkDocument pk (collect_pairs tokens))).
Proof.
  intros Hkey Hrest Hline. revert Hkey. generalize (pk ++ tail). intros line Hkey.
  unfold Get_response.
  replace (find_is_0 ("OK DOC " ++ line) "ERROR") with false
    by (rewrite find_is_0_prefix; reflexivity).
  replace (find_is_0 ("OK DOC " ++ line) "OK DOC") with true
    by (rewrite find_is_0_prefix; reflexivity).
  cbn [negb].
  change (extract_word (open_stream ("OK DOC " ++ line)))
    with (Some "OK", mk_iss (" DOC " ++ line) true).
  cbv iota beta.
  change (extract_word (mk_iss (" DOC " ++ line) true))
    with (Some "DOC", mk_iss (" " ++ line) true).
  cbv iota beta. rewrite Hkey. unfold getline. cbn [good pending].
  unfold ParseKeyValuePairs, open_stream.
  destruct tail as [|c tail].
  - cbn in Hrest. rewrite <- Hrest. reflexivity.
  - rewrite Hline, Hrest. reflexivity.
Qed.

(** X9. [Get] reads [OK DOC <pk> k=v ...] back as the document it
    describes: the key, and the pairs in the order sent, a repeated key
    being kept each time.  The bare line [OK DOC] gives a document with an
    empty key and no field. *)
Theorem Get_response_document :
  (forall (pk : string) (pairs : list (string * string)),
      is_word pk -> Forall pair_ok pairs ->
      Get_response ("OK DOC " ++ pk ++ spaced (map pair_token pairs))
      = Returns (inl (mkDocument pk pairs))) /\
  Get_response "OK DOC" = Returns (inl (mkDocument "" [])).
Proof.
  split; [|reflexivity].
  intros pk pairs Hpk Hpairs.
  assert (Hwords : Forall is_word (map pair_token pairs)).
  { apply Forall_map. revert Hpairs. apply Forall_impl. exact pair_token_is_word. }
  rewrite (Get_response_line pk _ (map pair_token pairs)).
  - now rewrite (collect_pairs_pair_tokens pairs Hpairs).
  - exact (extract_word_spaced pk _ Hpk (spaced_at_boundary _)).
  - exact (remaining_tokens_spaced _ Hwords).
  - exact (read_until_absent ch_lf _ (find_char_spaced_lf _ Hwords)).
Qed.

Lemma Get_response_document_witness :
  Get_response "OK DOC 42 title=hello tag=a tag=b"
  = Returns (inl (mkDocument "42" [("title", "hello"); ("tag", "a"); ("tag", "b")])).
Proof.
  apply (proj1 Get_response_document "42" [("title", "hello"); ("tag", "a"); ("tag", "b")]).
  - split; [discriminate | reflexivity].
  - repeat constructor.
Defined.

Lemma replication_pairs_spec (pairs : list (string * string)) (status : ReplicationStatus) :
  replication_pairs status pairs
  = mkReplicationStatus
      (match last_value "status" pairs with
       | Some v => v =? "running"
       | None => running status
       end)
      (match last_value "gtid" pairs with
       | Some v => v
       | None => gtid status
       end)
      (status_str status).
Proof.
  revert status; induction pairs as [|[k v] pairs IH]; intros status.
  - now destruct status.
  - cbn [replication_pairs last_value]. rewrite IH.
    destruct (last_value "status" pairs), (last_value "gtid" pairs);
      destruct (String.eqb_spec k "status") as [->|Hs]; cbn; try reflexivity;
      destruct (String.eqb_spec k "gtid") as [->|Hg]; cbn; reflexivity.
Qed.

Lemma OK_line_is_no_error_line (response verb : string) :
  find_is_0 response (String "O" verb) = true -> find_is_0 response "ERROR" = false.
Proof.
  rewrite !find_is_0_prefix. destruct response as [|c response]; [discriminate|].
  cbn [String.prefix]. destruct (ascii_dec "O" c) as [<-|_]; [|discriminate].
  reflexivity.
Qed.

(** X10. On an [OK REPLICATION] line [GetReplicationStatus] keeps the whole
    response as the raw status text; [running] is true exactly when the
    last [status=] pair of the line says [running] (false when there is
    none), and [gtid] is the value of the last [gtid=] pair, empty when
    there is none. *)
Theorem GetReplicationStatus_response_fields (response : string) :
  find_is_0 response "OK REPLICATION" = true ->
  exists status,
    GetReplicationStatus_response response = Returns (inl status) /\
    status_str status = response /\
    (running status = true <->
       last_value "status" (ParseKeyValuePairs response) = Some "running") /\
    gtid status = match last_value "gtid" (ParseKeyValuePairs response) with
                  | Some g => g
                  | None => ""
                  end.
Proof.
  intros Hok. unfold GetReplicationStatus_response.
  rewrite (OK_line_is_no_error_line response "K REPLICATION" Hok), Hok. cbn [negb].
  rewrite replication_pairs_spec. eexists. split; [reflexivity|].
  cbn [status_str running gtid]. split; [reflexivity|]. split; [|reflexivity].
  destruct (last_value "status" (ParseKeyValuePairs response)) as [v|].
  - rewrite String.eqb_eq. split; [now intros -> | now intros [= ->]].
  - split; discriminate.
Qed.

Lemma GetReplicationStatus_response_fields_witness :
  exists status,
    GetReplicationStatus_response "OK REPLICATION status=stopped gtid=a:1 status=running"
    = Returns (inl status) /\
    running status = true /\ gtid status = "a:1".
Proof.
  destruct (GetReplicationStatus_response_fields
              "OK REPLICATION status=stopped gtid=a:1 status=running" eq_refl)
    as (status & Heq & _ & Hrun & Hgtid).
  exists status. split; [exact Heq|]. split.
  - apply Hrun. reflexivity.
  - exact Hgtid.
Defined.

Lemma stoull_decimal (n : N) (rest : string) :
  after_number rest ->
  stoull (decimal n ++ rest)
  = if (UINT64_MAX <? n)%N then Throws out_of_range else Returns n.
Proof.
  intros Hr. unfold stoull. rewrite skip_ws_decimal, (scan_unsigned_decimal n rest Hr).
  reflexivity.
Qed.

Section CountFacts.

Variable double : Type.
Variable stod : string -> outcome double.

Lemma Count_response_tokens (n : N) (tokens : list string) :
  (n <= UINT64_MAX)%N -> Forall is_word tokens ->
  Count_response double stod ("OK COUNT " ++ decimal n ++ spaced tokens) =
  (dbg <- (match tokens with
           | first :: _ =>
               if first =? "DEBUG" then ParseDebugInfo double stod tokens 0
               else Returns None
           | [] => Returns None
           end) ;;
   Returns (inl (mkCountResponse n dbg))).
Proof.
  intros Hn Htokens. unfold Count_response.
  pose proof (extract_u64_decimal n 0 (spaced tokens) Hn (spaced_after_number tokens)) as Hcount.
  pose proof (remaining_tokens_spaced tokens Htokens) as Hrest.
  revert Hcount. generalize (decimal n ++ spaced tokens). intros line Hcount.
  replace (find_is_0 ("OK COUNT " ++ line) "ERROR") with false
    by (rewrite find_is_0_prefix; reflexivity).
  replace (find_is_0 ("OK COUNT " ++ line) "OK COUNT") with true
    by (rewrite find_is_0_prefix; reflexivity).
  cbn [negb].
  change (extract_word (open_stream ("OK COUNT " ++ line)))
    with (Some "OK", mk_iss (" COUNT " ++ line) true).
  cbv iota beta.
  change (extract_word (mk_iss (" COUNT " ++ line) true))
    with (Some "COUNT", mk_iss (" " ++ line) true).
  cbv iota beta.
  rewrite Hcount, Hrest. reflexivity.
Qed.

(** X11. [Count] reads [OK COUNT <n>] as the count [n] without debug
    information, and [OK COUNT <n> DEBUG ...] as the count with the debug
    block.  The block is read only when [DEBUG] is the first token after
    the count: after any other token the rest of the line is ignored, a
    later [DEBUG] block included. *)
Theorem Count_response_forms :
  (forall n : N,
      (n <= UINT64_MAX)%N ->
      Count_response double stod ("OK COUNT " ++ decimal n)
      = Returns (inl (mkCountResponse n None))) /\
  (forall (n : N) (dbg : list string),
      (n <= UINT64_MAX)%N -> Forall is_word dbg ->
      Count_response double stod ("OK COUNT " ++ decimal n ++ " DEBUG" ++ spaced dbg)
      = (info <- debug_loop double stod empty_debug dbg ;;
         Returns (inl (mkCountResponse n (Some info))))) /\
  (forall (n : N) (first : string) (rest : list string),
      (n <= UINT64_MAX)%N -> is_word first -> first <> "DEBUG" -> Forall is_word rest ->
      Count_response double stod ("OK COUNT " ++ decimal n ++ " " ++ first ++ spaced rest)
      = Returns (inl (mkCountResponse n None))).
Proof.
  split; [|split].
  - intros n Hn.
    replace (decimal n) with (decimal n ++ spaced []) by apply append_nil_r.
    now rewrite (Count_response_tokens n [] Hn (Forall_nil _)).
  - intros n dbg Hn Hdbg.
    change (" DEBUG" ++ spaced dbg) with (spaced ("DEBUG" :: dbg)).
    rewrite (Count_response_tokens n ("DEBUG" :: dbg) Hn).
    + replace ("DEBUG" =? "DEBUG") with true by reflexivity.
      unfold ParseDebugInfo. cbn [List.length Nat.leb nth orb skipn Nat.add].
      replace ("DEBUG" =? "DEBUG") with true by reflexivity. cbn [negb].
      destruct (debug_loop double stod empty_debug dbg); reflexivity.
    + constructor; [split; [discriminate | reflexivity] | exact Hdbg].
  - intros n first rest Hn Hfirst Hne Hrest.
    change (" " ++ first ++ spaced rest) with (spaced (first :: rest)).
    rewrite (Count_response_tokens n (first :: rest) Hn) by now constructor.
    apply String.eqb_neq in Hne. now rewrite Hne.
Qed.

(** X12. In a debug block the 32-bit counters are stored modulo 2^32, so
    [terms=4294967296] reads as 0, while the 64-bit counters keep their
    value; whatever follows the digits in the token is ignored; a number
    above 2^64-1 makes the parse throw [std::out_of_range]. *)
Theorem debug_counters_wrap (info : DebugInfo double) (n : N) (rest : string) :
  after_number rest ->
  ((n <= UINT64_MAX)%N ->
     debug_token double stod info ("terms=" ++ decimal n ++ rest)
     = Returns (mkDebugInfo (query_time_ms info) (index_time_ms info) (filter_time_ms info)
                  (Some (n mod 4294967296)%N) (ngrams info) (candidates info)
                  (after_intersection info) (after_not info) (after_filters info)
                  (final info) (optimization info)) /\
     debug_token double stod info ("candidates=" ++ decimal n ++ rest)
     = Returns (mkDebugInfo (query_time_ms info) (index_time_ms info) (filter_time_ms info)
                  (terms info) (ngrams info) (Some n)
                  (after_intersection info) (after_not info) (after_filters info)
                  (final info) (optimization info))) /\
  ((UINT64_MAX < n)%N ->
     debug_token double stod info ("terms=" ++ decimal n ++ rest) = Throws out_of_range /\
     debug_token double stod info ("candidates=" ++ decimal n ++ rest) = Throws out_of_range).
Proof.
  intros Hr. pose proof (stoull_decimal n rest Hr) as Hsto.
  revert Hsto. generalize (decimal n ++ rest). intros value Hsto.
  change ("terms=" ++ value) with ("terms" ++ "=" ++ value).
  change ("candidates=" ++ value) with ("candidates" ++ "=" ++ value).
  rewrite !(debug_token_pair double stod) by reflexivity.
  change (debug_field double stod info "terms" value)
    with (v <- stoul value ;;
          Returns (mkDebugInfo (query_time_ms info) (index_time_ms info) (filter_time_ms info)
                     (Some (to_uint32 v)) (ngrams info) (candidates info)
                     (after_intersection info) (after_not info) (after_filters info)
                     (final info) (optimization info))).
  change (debug_field double stod info "candidates" value)
    with (v <- stoull value ;;
          Returns (mkDebugInfo (query_time_ms info) (index_time_ms info) (filter_time_ms info)
                     (terms info) (ngrams info) (Some v)
                     (after_intersection info) (after_not info) (after_filters info)
                     (final info) (optimization info))).
  unfold stoul. rewrite Hsto.
  split; intros Hn.
  - destruct (N.ltb_spec UINT64_MAX n); [lia|]. split; reflexivity.
  - destruct (N.ltb_spec UINT64_MAX n); [|lia]. split; reflexivity.
Qed.

End CountFacts.

Lemma Count_response_forms_witness :
  Count_response Q decimal_literal ("OK COUNT " ++ decimal 42 ++ " DEBUG" ++ spaced ["final=42"])
  = Returns (inl (mkCountResponse 42
                    (Some (mkDebugInfo None None None None None None None None None
                                       (Some 42%N) None)))) /\
  Count_response Q decimal_literal
    ("OK COUNT " ++ decimal 42 ++ " " ++ "rows" ++ spaced ["DEBUG"; "final=42"])
  = Returns (inl (mkCountResponse 42 None)).
Proof.
  destruct (Count_response_forms Q decimal_literal) as (_ & Hdebug & Hother).
  split.
  - apply (Hdebug 42%N ["final=42"]); [discriminate | repeat constructor; discriminate].
  - apply (Hother 42%N "rows" ["DEBUG"; "final=42"]);
      [discriminate | split; [discriminate | reflexivity] | discriminate
      | repeat constructor; discriminate].
Defined.

Lemma debug_counters_wrap_witness :
  debug_token Q decimal_literal empty_debug ("terms=" ++ decimal 4294967296 ++ "ms")
  = Returns (mkDebugInfo None None None (Some 0%N) None None None None None None None) /\
  debug_token Q decimal_literal empty_debug
    ("candidates=" ++ decimal 18446744073709551616 ++ "")
  = Throws out_of_range.
Proof.
  split.
  - exact (proj1 (proj1 (debug_counters_wrap Q decimal_literal empty_debug
                           4294967296%N "ms" eq_refl)
                   ltac:(discriminate))).
  - exact (proj2 (proj2 (debug_counters_wrap Q decimal_literal empty_debug
                           18446744073709551616%N "" I)
                   eq_refl)).
Defined.

(** ** Escaping and command lines, continued *)

Lemma backslash_escaped_inj (a b : string) :
  backslash_escaped a = backslash_escaped b -> a = b.
Proof.
  revert b; induction a as [|c a IH]; intros [|d b]; cbn [backslash_escaped].
  - reflexivity.
  - destruct (gets_backslash d); discriminate.
  - destruct (gets_backslash c); discriminate.
  - destruct (gets_backslash c) eqn:Hc, (gets_backslash d) eqn:Hd.
    + intros [= -> H]. now rewrite (IH b H).
    + intros [= <- _]. discriminate Hd.
    + intros [= -> _]. discriminate Hc.
    + intros [= -> H]. now rewrite (IH b H).
Qed.

Lemma append_last_inj (a b : string) (x : ascii) :
  a ++ String x "" = b ++ String x "" -> a = b.
Proof.
  revert b; induction a as [|c a IH]; intros [|d b]; cbn [append].
  - reflexivity.
  - intros [= _ H]. destruct b; discriminate.
  - intros [= _ H]. destruct a; discriminate.
  - intros [= -> H]. now rewrite (IH b H).
Qed.

Lemma needs_quotes_dquote (s : string) : needs_quotes (String ch_dquote s) = true.
Proof. reflexivity. Qed.

(** X13. [EscapeQueryString] is injective: two different terms are never
    written the same way. *)
Theorem EscapeQueryString_injective (a b : string) :
  EscapeQueryString a = EscapeQueryString b -> a = b.
Proof.
  destruct (needs_quotes a) eqn:Ha, (needs_quotes b) eqn:Hb.
  - rewrite !EscapeQueryString_quoted by assumption. unfold quote_wrapped.
    intros [= H]. apply append_last_inj in H. now apply backslash_escaped_inj.
  - rewrite (EscapeQueryString_quoted a Ha). unfold EscapeQueryString at 1.
    rewrite Hb. cbn [negb]. unfold quote_wrapped. intros <-.
    rewrite needs_quotes_dquote in Hb. discriminate.
  - rewrite (EscapeQueryString_quoted b Hb). unfold EscapeQueryString at 1.
    rewrite Ha. cbn [negb]. unfold quote_wrapped. intros ->.
    rewrite needs_quotes_dquote in Ha. discriminate.
  - unfold EscapeQueryString. rewrite Ha, Hb. cbn [negb]. auto.
Qed.

Lemma EscapeQueryString_injective_witness : "a b" = "a b".
Proof. exact (EscapeQueryString_injective "a b" "a b" eq_refl). Defined.

Lemma append_terms_spec (cmd keyword : string) (terms : list string) :
  append_terms cmd keyword terms = cmd ++ terms_clause keyword terms.
Proof.
  revert cmd; induction terms as [|t terms IH]; intros cmd; cbn [append_terms terms_clause].
  - now rewrite append_nil_r.
  - rewrite IH. now rewrite !append_assoc.
Qed.

Lemma append_filters_spec (cmd : string) (filters : list (string * string)) :
  append_filters cmd filters = cmd ++ filters_clause filters.
Proof.
  revert cmd; induction filters as [|[k v] filters IH]; intros cmd;
    cbn [append_filters filters_clause].
  - now rewrite append_nil_r.
  - rewrite IH. now rewrite !append_assoc.
Qed.

(** X14. In the SEARCH and COUNT lines the AND terms come first, then the
    NOT terms, then the filters, each in the order given, every term and
    filter value escaped, table and filter keys as they are.  After its verb
    [Count] sends exactly what [Search] sends before its SORT and LIMIT
    clauses. *)
Theorem Search_Count_command_shape
    (table query : string) (and_terms not_terms : list string)
    (filters : list (string * string)) :
  Search_head table query and_terms not_terms filters
  = "SEARCH" ++ " " ++ table ++ " " ++ EscapeQueryString query
      ++ terms_clause " AND " and_terms ++ terms_clause " NOT " not_terms
      ++ filters_clause filters /\
  Count_command table query and_terms not_terms filters
  = "COUNT" ++ " " ++ table ++ " " ++ EscapeQueryString query
      ++ terms_clause " AND " and_terms ++ terms_clause " NOT " not_terms
      ++ filters_clause filters.
Proof.
  unfold Search_head, Count_command.
  rewrite !append_filters_spec, !append_terms_spec, !append_assoc.
  split; reflexivity.
Qed.

(** ** The INFO reply *)

Lemma all_trimmed_first (s : string) : all_trimmed s = true -> find_first_not_of s = None.
Proof.
  induction s as [|c s IH]; cbn [all_trimmed find_first_not_of]; [reflexivity|].
  intros H. apply andb_true_iff in H as [Hc Hs]. now rewrite Hc, (IH Hs).
Qed.

Lemma all_trimmed_last (s : string) : all_trimmed s = true -> find_last_not_of s = None.
Proof.
  induction s as [|c s IH]; cbn [all_trimmed find_last_not_of]; [reflexivity|].
  intros H. apply andb_true_iff in H as [Hc Hs]. now rewrite (IH Hs), Hc.
Qed.

Lemma find_first_not_of_lead (lead : string) (c : ascii) (s : string) :
  all_trimmed lead = true -> trimmed_char c = false ->
  find_first_not_of (lead ++ String c s) = Some (String.length lead).
Proof.
  intros Hl Hc. induction lead as [|x lead IH]; cbn [append find_first_not_of String.length].
  - now rewrite Hc.
  - cbn [all_trimmed] in Hl. apply andb_true_iff in Hl as [Hx Hl].
    now rewrite Hx, (IH Hl).
Qed.

Lemma find_last_not_of_core (core trail : string) :
  match last_char core with
  | Some d => trimmed_char d = false
  | None => False
  end ->
  all_trimmed trail = true ->
  find_last_not_of (core ++ trail) = Some (String.length core - 1)%nat.
Proof.
  intros Hlast Htrail. induction core as [|c core IH]; [now cbn in Hlast|].
  cbn [append find_last_not_of String.length].
  destruct core as [|d core].
  - cbn [append]. rewrite (all_trimmed_last trail Htrail).
    cbn [last_char] in Hlast. now rewrite Hlast.
  - rewrite IH by exact Hlast. cbn [String.length]. f_equal. lia.
Qed.

Lemma find_last_not_of_app (x y : string) (n : nat) :
  find_last_not_of y = Some n ->
  find_last_not_of (x ++ y) = Some (String.length x + n)%nat.
Proof.
  intros H. induction x as [|c x IH]; cbn [append find_last_not_of String.length].
  - exact H.
  - now rewrite IH.
Qed.

Lemma trim_value_core (lead core trail : string) :
  all_trimmed lead = true -> all_trimmed trail = true -> untrimmed_ends core ->
  trim_value (lead ++ core ++ trail) = core.
Proof.
  intros Hl Ht [Hfirst Hlast]. unfold trim_value.
  rewrite (find_last_not_of_app lead _ _ (find_last_not_of_core core trail Hlast Ht)).
  destruct core as [|c core]; [contradiction|]. cbn [append].
  rewrite (find_first_not_of_lead lead c (core ++ trail) Hl Hfirst).
  rewrite (drop_append lead). cbn [String.length].
  replace (String.length lead + (S (String.length core) - 1) - String.length lead + 1)%nat
    with (String.length (String c core)) by (cbn [String.length]; lia).
  change (String c (core ++ trail)) with (String c core ++ trail).
  apply take_append.
Qed.

(** X15. The value of an INFO line is trimmed of spaces, tabs, carriage
    returns and line feeds at both ends, what lies between being kept as it
    is; a value made only of such characters is not trimmed at all. *)
Theorem trim_value_spec :
  (forall lead core trail : string,
      all_trimmed lead = true -> all_trimmed trail = true -> untrimmed_ends core ->
      trim_value (lead ++ core ++ trail) = core) /\
  (forall blank : string, all_trimmed blank = true -> trim_value blank = blank).
Proof.
  split; [exact trim_value_core|].
  intros blank H. unfold trim_value. now rewrite (all_trimmed_first blank H).
Qed.

Lemma trim_value_spec_witness :
  trim_value (" " ++ "1.2 beta" ++ String ch_cr "") = "1.2 beta" /\
  trim_value "  " = "  ".
Proof.
  split.
  - apply (proj1 trim_value_spec " " "1.2 beta" (String ch_cr "")); try reflexivity.
    split; reflexivity.
  - apply (proj2 trim_value_spec "  "). reflexivity.
Defined.

Lemma read_until_length (delim : ascii) (s l r : string) :
  read_until delim s = (l, r) -> (String.length r <= String.length s)%nat.
Proof.
  revert l r; induction s as [|c s IH]; intros l r; cbn [read_until].
  - intros [= _ <-]. cbn. lia.
  - destruct (Ascii.eqb c delim); [intros [= _ <-]; cbn; lia|].
    destruct (read_until delim s) as [l' r'] eqn:E. intros [= _ <-].
    specialize (IH l' r' eq_refl). cbn. lia.
Qed.

Lemma read_pieces_fuel (fuel1 fuel2 : nat) (delim : ascii) (s : string) :
  (String.length s < fuel1)%nat -> (String.length s < fuel2)%nat ->
  read_pieces fuel1 delim s = read_pieces fuel2 delim s.
Proof.
  revert fuel2 s; induction fuel1 as [|fuel1 IH]; intros fuel2 s H1 H2; [lia|].
  destruct fuel2 as [|fuel2]; [lia|]. cbn [read_pieces].
  destruct s as [|c s]; [reflexivity|].
  destruct (read_until delim (String c s)) as [l r] eqn:E.
  f_equal. cbn [read_until] in E.
  assert (Hr : (String.length r <= String.length s)%nat).
  { destruct (Ascii.eqb c delim); [injection E as _ <-; lia|].
    destruct (read_until delim s) as [l' r'] eqn:E'. injection E as _ <-.
    exact (read_until_length _ _ _ _ E'). }
  cbn [String.length] in *. apply IH; lia.
Qed.

Lemma read_until_split (delim : ascii) (l rest : string) :
  find_char l delim = None -> read_until delim (l ++ String delim rest) = (l, rest).
Proof.
  induction l as [|c l IH]; cbn [append find_char read_until].
  - now rewrite Ascii.eqb_refl.
  - destruct (Ascii.eqb c delim); [discriminate|].
    destruct (find_char l delim); [discriminate|]. intros _. now rewrite IH.
Qed.

Lemma pieces_cons (delim : ascii) (l rest : string) :
  find_char l delim = None ->
  pieces delim (l ++ String delim rest) = l :: pieces delim rest.
Proof.
  intros H. unfold pieces.
  set (R := read_pieces (S (String.length rest)) delim rest). cbn [read_pieces].
  pose proof (read_until_split delim l rest H) as Hsplit.
  destruct (l ++ String delim rest) as [|c s] eqn:E; [destruct l; discriminate|].
  rewrite Hsplit. f_equal. subst R. apply read_pieces_fuel; [|lia].
  apply (f_equal String.length) in E. rewrite length_append in E.
  cbn [String.length] in *. lia.
Qed.

Lemma pieces_single (delim : ascii) (x : string) :
  find_char x delim = None -> x <> "" -> pieces delim x = [x].
Proof.
  intros H Hne. unfold pieces. cbn [read_pieces].
  destruct x as [|c x]; [now elim Hne|].
  rewrite (read_until_absent delim _ H). reflexivity.
Qed.

(** The pieces of a delimited text are its entries, except that an empty
    last entry is not read. *)
Lemma pieces_concat (delim : ascii) (entries : list string) :
  Forall (fun e => find_char e delim = None) entries ->
  pieces delim (String.concat (String delim "") entries) = entries \/
  (pieces delim (String.concat (String delim "") entries) ++ [""])%list = entries.
Proof.
  induction 1 as [|x entries Hx Hrest IH]; [now left|].
  destruct entries as [|y entries].
  - cbn [String.concat]. destruct x as [|c x]; [now right|].
    left. apply pieces_single; [exact Hx | discriminate].
  - change (String.concat (String delim "") (x :: y :: entries))
      with (x ++ String delim (String.concat (String delim "") (y :: entries))).
    rewrite (pieces_cons delim x _ Hx).
    destruct IH as [IH|IH]; [left | right; cbn [app]]; now rewrite IH.
Qed.

Lemma nonempty_only_app_empty (l : list string) :
  nonempty_only (l ++ [""])%list = nonempty_only l.
Proof.
  induction l as [|x l IH]; [reflexivity|].
  cbn [app nonempty_only]. now rewrite IH.
Qed.

Lemma info_line_skipped (info : ServerInfo) (line : string) :
  skipped_line line -> info_line info line = Returns info.
Proof.
  destruct line as [|c line]; [reflexivity|]. cbn [skipped_line info_line].
  intros [-> | [-> | H]]; [reflexivity | reflexivity |].
  destruct (Ascii.eqb c "#" || Ascii.eqb c ch_cr); [reflexivity|]. now rewrite H.
Qed.

Lemma info_lines_app_empty (info : ServerInfo) (lines : list string) :
  info_lines info (lines ++ [""])%list = info_lines info lines.
Proof.
  revert info; induction lines as [|l lines IH]; intros info; [reflexivity|].
  cbn [app info_lines]. destruct (info_line info l); cbn [bind]; [apply IH | reflexivity].
Qed.

Lemma info_field_unknown (info : ServerInfo) (key value : string) :
  ~ In key info_keys -> info_field info key value = Returns info.
Proof.
  intros H. unfold info_field.
  repeat match goal with
         | |- context [(key =? ?k)%string] =>
             destruct (String.eqb_spec key k) as [->|_];
             [exfalso; apply H; unfold info_keys; simpl; tauto|]
         end.
  reflexivity.
Qed.

(** X16. [Info] reads the reply line by line after the first one: its
    result is the per-line step folded over the lines in order, starting
    from the default [ServerInfo], and an exception in one line is the
    outcome of the call.  A line that is empty, starts with [#] or a
    carriage return, or holds no colon changes nothing, and neither does a
    key the loop does not know. *)
Theorem Info_response_lines :
  (forall lines : list string,
      Forall (fun l => find_char l ch_lf = None) lines ->
      Info_response (String.concat (String ch_lf "") ("OK INFO" :: lines))
      = (info <- info_lines empty_info lines ;; Returns (inl info))) /\
  (forall (info : ServerInfo) (line : string),
      skipped_line line -> info_line info line = Returns info) /\
  (forall (info : ServerInfo) (key value : string),
      ~ In key info_keys -> info_field info key value = Returns info).
Proof.
  split; [|split; [exact info_line_skipped | exact info_field_unknown]].
  intros lines Hlines. unfold Info_response.
  assert (Hall : Forall (fun l => find_char l ch_lf = None) ("OK INFO" :: lines))
    by (constructor; [reflexivity | exact Hlines]).
  pose proof (pieces_concat ch_lf _ Hall) as Hpieces.
  assert (Hprefix : exists rest,
             String.concat (String ch_lf "") ("OK INFO" :: lines) = "OK INFO" ++ rest).
  { destruct lines; [now exists "" | eexists; reflexivity]. }
  destruct Hprefix as (rest & Hrest). rewrite Hrest in *.
  replace (find_is_0 ("OK INFO" ++ rest) "ERROR") with false
    by (rewrite find_is_0_prefix; reflexivity).
  rewrite (find_is_0_append "OK INFO" rest). cbn [negb].
  fold empty_info.
  destruct Hpieces as [-> | Hdrop]; [reflexivity|].
  destruct (pieces ch_lf ("OK INFO" ++ rest)) as [|first kept].
  - discriminate Hdrop.
  - injection Hdrop as _ <-. cbn [tl]. now rewrite info_lines_app_empty.
Qed.

Lemma Info_response_lines_witness :
  Info_response (String.concat (String ch_lf "")
                   ["OK INFO"; "# Server"; ""; "mode: standalone"; "broken line"])
  = Returns (inl empty_info).
Proof.
  rewrite (proj1 Info_response_lines ["# Server"; ""; "mode: standalone"; "broken line"])
    by (repeat constructor).
  cbn [info_lines].
  rewrite (proj1 (proj2 Info_response_lines) empty_info "# Server") by (left; reflexivity).
  cbn [bind info_lines].
  rewrite (proj1 (proj2 Info_response_lines) empty_info "") by exact I.
  cbn [bind info_lines].
  change (info_line empty_info "mode: standalone")
    with (info_field empty_info "mode" (trim_value " standalone")).
  rewrite (proj2 (proj2 Info_response_lines) empty_info "mode")
    by (simpl; intuition discriminate).
  cbn [bind info_lines].
  rewrite (proj1 (proj2 Info_response_lines) empty_info "broken line")
    by (right; right; reflexivity).
  reflexivity.
Defined.

Lemma is_digit_not_trimmed (c : ascii) : is_digit c = true -> trimmed_char c = false.
Proof.
  intros H. unfold trimmed_char.
  repeat match goal with
         | |- context [Ascii.eqb c ?x] =>
             destruct (Ascii.eqb_spec c x) as [->|_]; [discriminate H|]
         end.
  reflexivity.
Qed.

Lemma all_digits_last (ds : string) :
  all_digits ds = true ->
  match last_char ds with
  | Some d => is_digit d = true
  | None => ds = ""
  end.
Proof.
  induction ds as [|c ds IH]; [reflexivity|].
  cbn [all_digits]. intros H. apply andb_true_iff in H as [Hc Hds].
  specialize (IH Hds). cbn [last_char]. destruct ds as [|d ds]; [exact Hc|].
  destruct (last_char (String d ds)); [exact IH | discriminate IH].
Qed.

Lemma decimal_untrimmed (n : N) : untrimmed_ends (decimal n).
Proof.
  destruct (decimal_spec n) as (Hne & Hall & _).
  pose proof (all_digits_last _ Hall) as Hlast.
  unfold untrimmed_ends. destruct (decimal n) as [|c ds]; [now elim Hne|].
  split.
  - cbn [all_digits] in Hall. apply andb_true_iff in Hall as [Hc _].
    now apply is_digit_not_trimmed.
  - destruct (last_char (String c ds)); [now apply is_digit_not_trimmed | discriminate].
Qed.

Lemma nonempty_only_filter (l : list string) :
  nonempty_only l = filter (fun t => negb (t =? "")) l.
Proof.
  induction l as [|t l IH]; [reflexivity|].
  cbn [nonempty_only filter]. rewrite IH. now destruct (t =? "").
Qed.

(** X17. A counter line of the INFO reply, whatever spaces, tabs and
    carriage returns surround the number, sets its field to the number;
    [total_documents] is read into [doc_count].  A number above 2^64-1 makes
    the line throw [std::out_of_range], and a value starting with neither a
    digit, a sign nor white space makes it throw [std::invalid_argument]. *)
Theorem info_line_counters (info : ServerInfo) (lead trail : string) :
  all_trimmed lead = true -> all_trimmed trail = true ->
  (forall n : N,
      (n <= UINT64_MAX)%N ->
      info_line info ("uptime_seconds:" ++ lead ++ decimal n ++ trail)
      = Returns (mkServerInfo (version info) n (total_requests info)
                   (active_connections info) (index_size_bytes info) (doc_count info)
                   (tables info)) /\
      info_line info ("total_documents:" ++ lead ++ decimal n ++ trail)
      = Returns (mkServerInfo (version info) (uptime_seconds info) (total_requests info)
                   (active_connections info) (index_size_bytes info) n (tables info))) /\
  (forall n : N,
      (UINT64_MAX < n)%N ->
      info_line info ("uptime_seconds:" ++ lead ++ decimal n ++ trail)
      = Throws out_of_range) /\
  (forall (c : ascii) (rest : string),
      untrimmed_ends (String c rest) ->
      is_digit c = false -> isspace c = false -> c <> "-"%char -> c <> "+"%char ->
      info_line info ("uptime_seconds:" ++ lead ++ String c rest ++ trail)
      = Throws invalid_argument).
Proof.
  intros Hlead Htrail.
  assert (Hup : forall value,
             info_line info ("uptime_seconds:" ++ value)
             = (n <- stoull (trim_value value) ;;
                Returns (mkServerInfo (version info) n (total_requests info)
                           (active_connections info) (index_size_bytes info)
                           (doc_count info) (tables info)))) by reflexivity.
  assert (Hdoc : forall value,
             info_line info ("total_documents:" ++ value)
             = (n <- stoull (trim_value value) ;;
                Returns (mkServerInfo (version info) (uptime_seconds info)
                           (total_requests info) (active_connections info)
                           (index_size_bytes info) n (tables info)))) by reflexivity.
  assert (Hnum : forall n, stoull (trim_value (lead ++ decimal n ++ trail))
                           = if (UINT64_MAX <? n)%N then Throws out_of_range else Returns n).
  { intros n. rewrite (trim_value_core lead (decimal n) trail Hlead Htrail (decimal_untrimmed n)).
    rewrite <- (append_nil_r (decimal n)) at 1. now apply stoull_decimal. }
  split; [|split].
  - intros n Hn. rewrite Hup, Hdoc, Hnum.
    destruct (N.ltb_spec UINT64_MAX n); [lia|]. split; reflexivity.
  - intros n Hn. rewrite Hup, Hnum.
    destruct (N.ltb_spec UINT64_MAX n); [reflexivity | lia].
  - intros c rest Hends Hd Hs Hm Hp.
    rewrite Hup, (trim_value_core lead (String c rest) trail Hlead Htrail Hends).
    unfold stoull. cbn [skip_ws]. rewrite Hs. unfold scan_unsigned.
    apply Ascii.eqb_neq in Hm, Hp. rewrite Hm, Hp. cbn [read_digits]. now rewrite Hd.
Qed.

Lemma info_line_counters_witness :
  info_line empty_info ("uptime_seconds:" ++ " " ++ decimal 86400 ++ String ch_cr "")
  = Returns (mkServerInfo "" 86400 0 0 0 0 []) /\
  info_line empty_info ("uptime_seconds:" ++ " " ++ "n/a" ++ String ch_cr "")
  = Throws invalid_argument.
Proof.
  destruct (info_line_counters empty_info " " (String ch_cr "") eq_refl eq_refl)
    as (Hok & _ & Hbad).
  split.
  - exact (proj1 (Hok 86400%N ltac:(discriminate))).
  - apply (Hbad "n"%char "/a"); try reflexivity; try discriminate.
    split; reflexivity.
Defined.

(** X18. The value of the [tables] key is split at its commas; empty
    entries are dropped, and the names are added after those already
    read. *)
Theorem info_field_tables (info : ServerInfo) (entries : list string) :
  Forall (fun e => find_char e "," = None) entries ->
  info_field info "tables" (String.concat "," entries)
  = Returns (mkServerInfo (version info) (uptime_seconds info) (total_requests info)
               (active_connections info) (index_size_bytes info) (doc_count info)
               (tables info ++ filter (fun t => negb (t =? "")) entries)%list).
Proof.
  intros H.
  change (info_field info "tables" (String.concat "," entries))
    with (Returns (mkServerInfo (version info) (uptime_seconds info) (total_requests info)
                     (active_connections info) (index_size_bytes info) (doc_count info)
                     (tables info ++ nonempty_only (pieces "," (String.concat "," entries)))%list)).
  do 3 f_equal.
  rewrite <- nonempty_only_filter.
  destruct (pieces_concat "," entries H) as [Heq|Heq].
  - now rewrite Heq.
  - revert Heq. generalize (pieces "," (String.concat "," entries)).
    intros kept <-. now rewrite nonempty_only_app_empty.
Qed.

Lemma info_field_tables_witness :
  info_field empty_info "tables" "articles,,comments,"
  = Returns (mkServerInfo "" 0 0 0 0 0 ["articles"; "comments"]).
Proof.
  exact (info_field_tables empty_info ["articles"; ""; "comments"; ""]
           ltac:(repeat constructor)).
Defined.
